(** * Points ledger and recognition parser of the Slack appreciation bot

    A shallow embedding of [src/services/dataService.ts] (the ledger) and
    [src/services/recognitionService.ts] (the parser and the orchestrator).

    - The persisted [AppState] is a record; the JS objects [users] and
      [byValue] are stdpp [gmap]s keyed by strings.
    - The [DataService] object is the state of a small state-and-error
      monad [M]: its in-memory [state] and the last snapshot written to
      disk.  Exceptions ([throw new Error(...)]) are the [Err] results;
      as in JS, an exception keeps every mutation made before it.
    - The world is an [Env]: the date [new Date().toISOString()] yields
      ("YYYY-MM-DD") and whether [fs.promises.writeFile] succeeds. *)

From Stdlib Require Import ZArith Ascii String List Lia Sorted.
From stdpp Require Import base gmap strings list fin_maps.

Open Scope Z_scope.

(* ------------------------------------------------------------------ *)
(** ** Types ([src/types/index.ts]) *)

Record Reward := mkReward { name : string; cost : Z }.

Record AppConfig := mkConfig {
  dailyLimit : Z;
  values : list string;
  rewards : list Reward
}.

Record UserRecord := mkUser {
  total : Z;
  byValue : gmap string Z;
  dailyGiven : Z;
  lastReset : string
}.

Record AppState := mkState {
  config : AppConfig;
  users : gmap string UserRecord
}.

(** [Recognition]; the [timestamp] field ([Date.now()]) is not modelled:
    no operation of the ledger or of the parser reads it. *)
Record Recognition := mkRecognition {
  giver : string;
  receiver : string;
  reason : string;
  value : string;
  points : Z
}.

(* ------------------------------------------------------------------ *)
(** ** The [DataService] object and its monad *)

(** [state] is [this.state]; [disk] is the content of [dataFilePath]. *)
Record Ledger := mkLedger { state : AppState; disk : AppState }.

(** The environment of one call: the value of
    [new Date().toISOString().split('T')[0]] and whether the write of
    [fs.promises.writeFile] succeeds. *)
Record Env := mkEnv { today : string; storage_ok : bool }.

Inductive result (A : Type) := Ok (a : A) | Err (msg : string).
Arguments Ok {A} a.
Arguments Err {A} msg.

Definition M (A : Type) : Type := Ledger -> result A * Ledger.

#[global] Instance M_ret : MRet M := fun A a L => (Ok a, L).
#[global] Instance M_bind : MBind M := fun A B f m L =>
  match m L with
  | (Ok a, L') => f a L'
  | (Err e, L') => (Err e, L')
  end.

Definition get_state : M AppState := fun L => (Ok (state L), L).
Definition put_state (s : AppState) : M unit :=
  fun L => (Ok tt, mkLedger s (disk L)).

Definition set_users (us : gmap string UserRecord) (s : AppState) : AppState :=
  mkState (config s) us.
Definition set_config (c : AppConfig) (s : AppState) : AppState :=
  mkState c (users s).

(** [this.state.users = f(this.state.users)] *)
Definition modify_users (f : gmap string UserRecord -> gmap string UserRecord) : M unit :=
  s ← get_state; put_state (set_users (f (users s)) s).

Definition modify_config (f : AppConfig -> AppConfig) : M unit :=
  s ← get_state; put_state (set_config (f (config s)) s).

(** [saveState]: writes [JSON.stringify(this.state)]; on a failed write
    it logs and throws [new Error('Failed to save data')]. *)
Definition saveState (env : Env) : M unit := fun L =>
  if storage_ok env then (Ok tt, mkLedger (state L) (state L))
  else (Err "Failed to save data", L).

(* ------------------------------------------------------------------ *)
(** ** Record helpers *)

Definition fresh_user (today : string) : UserRecord :=
  mkUser 0 ∅ 0 today.

Definition set_total (t : Z) (u : UserRecord) : UserRecord :=
  mkUser t (byValue u) (dailyGiven u) (lastReset u).
Definition set_byValue (bv : gmap string Z) (u : UserRecord) : UserRecord :=
  mkUser (total u) bv (dailyGiven u) (lastReset u).
Definition set_dailyGiven (d : Z) (u : UserRecord) : UserRecord :=
  mkUser (total u) (byValue u) d (lastReset u).
Definition set_lastReset (d : string) (u : UserRecord) : UserRecord :=
  mkUser (total u) (byValue u) (dailyGiven u) d.

(** [if (!this.state.users[id]) this.state.users[id] = {total: 0, ...}]:
    a record object is always truthy, so the test is absence. *)
Definition ensure_user (today id : string) (us : gmap string UserRecord)
  : gmap string UserRecord :=
  match us !! id with
  | Some _ => us
  | None => <[id := fresh_user today]> us
  end.

(** A JS number is truthy when it is neither 0 nor undefined. *)
Definition truthy (o : option Z) : bool :=
  match o with Some n => negb (n =? 0) | None => false end.

(* ------------------------------------------------------------------ *)
(** ** [DataService] *)

Definition getConfig : M AppConfig := s ← get_state; mret (config s).

(** [getReward]: [rewards.find(r => r.name === name)] *)
Definition getReward (cfg : AppConfig) (n : string) : option Reward :=
  find (fun r => String.eqb (name r) n) (rewards cfg).

(** [getUserRecord]: materializes a fresh record for an unknown id
    (without saving) and returns a copy. *)
Definition getUserRecord (env : Env) (userId : string) : M UserRecord :=
  modify_users (ensure_user (today env) userId) ;;
  s ← get_state;
  mret (default (fresh_user (today env)) (users s !! userId)).

Definition resetUserPoints (env : Env) (userId : string) : M unit :=
  modify_users (ensure_user (today env) userId) ;;
  modify_users (alter (set_total 0) userId) ;;
  modify_users (alter (set_byValue ∅) userId) ;;
  modify_users (alter (set_dailyGiven 0) userId) ;;
  modify_users (alter (set_lastReset (today env)) userId) ;;
  saveState env.

Definition recordRecognition (env : Env) (rc : Recognition) : M unit :=
  let g := giver rc in
  let r := receiver rc in
  let v := value rc in
  let p := points rc in
  let t := today env in
  modify_users (ensure_user t g) ;;
  (* if (this.state.users[giver].lastReset !== today) { ... } *)
  modify_users (alter (fun u =>
    if String.eqb (lastReset u) t then u
    else set_lastReset t (set_dailyGiven 0 u)) g) ;;
  modify_users (alter (fun u => set_dailyGiven (dailyGiven u + p) u) g) ;;
  modify_users (ensure_user t r) ;;
  modify_users (alter (fun u => set_total (total u + p) u) r) ;;
  (* if (!byValue[value]) byValue[value] = 0; byValue[value] += points *)
  modify_users (alter (fun u =>
    if truthy (byValue u !! v) then u
    else set_byValue (<[v := 0]> (byValue u)) u) r) ;;
  modify_users (alter (fun u =>
    set_byValue (<[v := default 0 (byValue u !! v) + p]> (byValue u)) u) r) ;;
  saveState env.

Definition canGivePoints (env : Env) (userId : string) (p : Z) : M bool :=
  user ← getUserRecord env userId;
  s ← get_state;
  if negb (String.eqb (lastReset user) (today env)) then mret true
  else mret (dailyGiven user + p <=? dailyLimit (config s)).

Definition redeemReward (env : Env) (userId rewardName : string) : M bool :=
  cfg ← getConfig;
  match getReward cfg rewardName with
  | None => mret false
  | Some rw =>
      user ← getUserRecord env userId;
      if total user <? cost rw then mret false
      else
        (modify_users (alter (fun u => set_total (total u - cost rw) u) userId) ;;
         saveState env ;;
         mret true)
  end.

(* ------------------------------------------------------------------ *)
(** ** Strings: [toLowerCase] and [trim] on 8-bit code units *)

Definition code (c : ascii) : nat := nat_of_ascii c.

(** JS [WhiteSpace] and [LineTerminator] code units below 256; this is
    also the class [\s] of a non-unicode regular expression. *)
Definition is_ws (c : ascii) : bool :=
  let n := code c in
  ((9 <=? n) && (n <=? 13))%nat || (n =? 32)%nat || (n =? 160)%nat.

(** [toLowerCase] on Latin-1: A-Z and U+00C0..U+00DE except U+00D7. *)
Definition to_lower_char (c : ascii) : ascii :=
  let n := code c in
  if ((65 <=? n) && (n <=? 90))%nat
     || ((192 <=? n) && (n <=? 222) && negb (n =? 215))%nat
  then ascii_of_nat (n + 32) else c.

Definition toLowerCase (s : string) : string :=
  string_of_list_ascii (map to_lower_char (list_ascii_of_string s)).

Fixpoint drop_ws (l : list ascii) : list ascii :=
  match l with
  | c :: l' => if is_ws c then drop_ws l' else l
  | [] => []
  end.

Definition trim (s : string) : string :=
  string_of_list_ascii
    (rev (drop_ws (rev (drop_ws (list_ascii_of_string s))))).

(* ------------------------------------------------------------------ *)
(** ** Config mutators of [DataService] *)

(** [Partial<AppConfig>] *)
Record ConfigPatch := mkPatch {
  p_dailyLimit : option Z;
  p_values : option (list string);
  p_rewards : option (list Reward)
}.

Definition updateConfig (env : Env) (pt : ConfigPatch) : M unit :=
  modify_config (fun c => mkConfig
    (default (dailyLimit c) (p_dailyLimit pt))
    (default (values c) (p_values pt))
    (default (rewards c) (p_rewards pt))) ;;
  saveState env.

Definition setDailyLimit (env : Env) (limit : Z) : M unit :=
  modify_config (fun c => mkConfig limit (values c) (rewards c)) ;;
  saveState env.

Definition addValue (env : Env) (v : string) : M unit :=
  let normalizedValue := trim (toLowerCase v) in
  cfg ← getConfig;
  if existsb (String.eqb normalizedValue) (values cfg) then mret ()
  else
    (modify_config (fun c => mkConfig (dailyLimit c)
                               (values c ++ [normalizedValue]) (rewards c)) ;;
     saveState env).

Definition removeValue (env : Env) (v : string) : M unit :=
  let normalizedValue := trim (toLowerCase v) in
  modify_config (fun c => mkConfig (dailyLimit c)
    (filter (fun x => negb (String.eqb x normalizedValue)) (values c))
    (rewards c)) ;;
  saveState env.

(** [rewards[existingIndex].cost = cost] updates the first reward of
    that name; otherwise the reward is pushed. *)
Fixpoint set_first_cost (n : string) (k : Z) (rs : list Reward)
  : option (list Reward) :=
  match rs with
  | [] => None
  | r :: rs' =>
      if String.eqb (name r) n then Some (mkReward (name r) k :: rs')
      else option_map (cons r) (set_first_cost n k rs')
  end.

Definition addReward (env : Env) (n : string) (k : Z) : M unit :=
  modify_config (fun c => mkConfig (dailyLimit c) (values c)
    (match set_first_cost n k (rewards c) with
     | Some rs => rs
     | None => rewards c ++ [mkReward n k]
     end)) ;;
  saveState env.

Definition removeReward (env : Env) (n : string) : M unit :=
  modify_config (fun c => mkConfig (dailyLimit c) (values c)
    (filter (fun r => negb (String.eqb (name r) n)) (rewards c))) ;;
  saveState env.

Definition resetRewards (env : Env) : M unit :=
  modify_config (fun c => mkConfig (dailyLimit c) (values c) []) ;;
  saveState env.

Definition default_values : list string := ["integrity"; "innovation"; "teamwork"].

Definition resetValues (env : Env) : M unit :=
  modify_config (fun c => mkConfig (dailyLimit c) default_values (rewards c)) ;;
  saveState env.

(** The state [loadInitialState] returns when no data file exists. *)
Definition default_state : AppState :=
  mkState (mkConfig 5 default_values
             [mkReward "Coffee Voucher" 50; mkReward "Half-day Off" 100])
          ∅.

(* ------------------------------------------------------------------ *)
(** ** A backtracking matcher for the regular expressions of the parser

    The matcher follows the ECMAScript pattern semantics (continuation
    passing, leftmost alternative first, greedy or lazy quantifiers with
    the empty-iteration check, captures cleared at each iteration,
    lookahead without backtracking into it).  Input is a list of 8-bit
    code units; the flag [i] is built into the character predicates. *)

Inductive re :=
| REmpty
| RClass (p : ascii -> bool)
| RSeq (r1 r2 : re)
| RAlt (r1 r2 : re)
| RRep (mn : nat) (mx : option nat) (greedy : bool) (r : re)
| RGroup (n : nat) (r : re)
| REnd
| RLook (r : re).

Record mstate := mkM { mpos : nat; caps : list (option (nat * nat)) }.

Fixpoint groups_in (r : re) : list nat :=
  match r with
  | REmpty | RClass _ | REnd => []
  | RSeq r1 r2 | RAlt r1 r2 => groups_in r1 ++ groups_in r2
  | RRep _ _ _ r1 | RLook r1 => groups_in r1
  | RGroup n r1 => n :: groups_in r1
  end.

Definition clear_caps (gs : list nat) (cs : list (option (nat * nat)))
  : list (option (nat * nat)) :=
  fold_left (fun cs n => <[n := None]> cs) gs cs.

Section Matcher.
Variable input : list ascii.

Fixpoint mt (r : re) (k : mstate -> option mstate) (x : mstate) {struct r}
  : option mstate :=
  match r with
  | REmpty => k x
  | RClass p =>
      match input !! mpos x with
      | Some c => if p c then k (mkM (S (mpos x)) (caps x)) else None
      | None => None
      end
  | RSeq r1 r2 => mt r1 (mt r2 k) x
  | RAlt r1 r2 =>
      match mt r1 k x with Some y => Some y | None => mt r2 k x end
  | RGroup n r1 =>
      mt r1 (fun y => k (mkM (mpos y) (<[n := Some (mpos x, mpos y)]> (caps y)))) x
  | REnd => if (mpos x =? length input)%nat then k x else None
  | RLook r1 =>
      match mt r1 Some x with
      | Some y => k (mkM (mpos x) (caps y))
      | None => None
      end
  | RRep mn mx greedy r1 =>
      (* every iteration that goes on consumes input (the bodies used
         below never match the empty string), so [S (length input)]
         rounds are enough *)
      let fix rep (fuel mn : nat) (mx : option nat) (x : mstate) :=
        match fuel with
        | O => None
        | S f =>
            match mx with
            | Some O => k x
            | _ =>
                let d := fun y =>
                  if (mn =? 0)%nat && (mpos y =? mpos x)%nat then None
                  else rep f (pred mn) (option_map pred mx) y in
                let xr := mkM (mpos x) (clear_caps (groups_in r1) (caps x)) in
                if negb (mn =? 0)%nat then mt r1 d xr
                else if greedy then
                  match mt r1 d xr with Some z => Some z | None => k x end
                else
                  match k x with Some z => Some z | None => mt r1 d xr end
            end
        end in
      rep (S (length input)) mn mx x
  end.

Record match_result := mkMatch {
  m_start : nat; m_end : nat; m_caps : list (option (nat * nat))
}.

(** One attempt of [RegExpBuiltinExec] at index [i]. *)
Definition match_at (R : re) (ncap i : nat) : option match_result :=
  match mt R Some (mkM i (replicate (S ncap) None)) with
  | Some y => Some (mkMatch i (mpos y) (caps y))
  | None => None
  end.

(** The scan of [exec] from [lastIndex = i] up to the end of the input. *)
Fixpoint exec_from (R : re) (ncap fuel i : nat) : option match_result :=
  match fuel with
  | O => None
  | S f =>
      if (length input <? i)%nat then None
      else match match_at R ncap i with
           | Some m => Some m
           | None => exec_from R ncap f (S i)
           end
  end.

(** [text.match(R)] for a regular expression without the flag [g]. *)
Definition exec (R : re) (ncap : nat) : option match_result :=
  exec_from R ncap (S (S (length input))) 0.

(** [[...text.matchAll(R)]] for a regular expression with the flag [g]. *)
Fixpoint match_all_from (R : re) (ncap fuel i : nat) : list match_result :=
  match fuel with
  | O => []
  | S f =>
      match exec_from R ncap (S (S (length input))) i with
      | None => []
      | Some m =>
          m :: match_all_from R ncap f
                 (if (m_end m =? m_start m)%nat then S (m_end m) else m_end m)
      end
  end.

Definition match_all (R : re) (ncap : nat) : list match_result :=
  match_all_from R ncap (S (S (length input))) 0.

(** The substring of capture group [n], [undefined] as [None]. *)
Definition cap (m : match_result) (n : nat) : option string :=
  match m_caps m !! n with
  | Some (Some (a, b)) => Some (string_of_list_ascii (take (b - a) (drop a input)))
  | _ => None
  end.

End Matcher.

(** Character classes. *)
Definition chr (ch : ascii) : ascii -> bool := fun c => Ascii.eqb c ch.

Definition to_upper_ascii (c : ascii) : ascii :=
  let n := code c in
  if ((97 <=? n) && (n <=? 122))%nat then ascii_of_nat (n - 32) else c.

(** A literal character under the flag [i]. *)
Definition chr_i (ch : ascii) : ascii -> bool :=
  fun c => Ascii.eqb (to_upper_ascii c) (to_upper_ascii ch).

Definition is_digit (c : ascii) : bool := ((48 <=? code c) && (code c <=? 57))%nat.
Definition is_upper (c : ascii) : bool := ((65 <=? code c) && (code c <=? 90))%nat.
Definition is_lower (c : ascii) : bool := ((97 <=? code c) && (code c <=? 122))%nat.

(** [[A-Z0-9]], and the same class under the flag [i]. *)
Definition upper_digit (c : ascii) : bool := is_upper c || is_digit c.
Definition upper_digit_i (c : ascii) : bool := is_upper c || is_lower c || is_digit c.
(** [\w] *)
Definition word_char (c : ascii) : bool :=
  is_upper c || is_lower c || is_digit c || Ascii.eqb c "_"%char.
(** [.] : anything but a line terminator *)
Definition dot (c : ascii) : bool :=
  negb (Ascii.eqb c (ascii_of_nat 10)) && negb (Ascii.eqb c (ascii_of_nat 13)).
(** [[^<#]] *)
Definition not_lt_hash (c : ascii) : bool :=
  negb (Ascii.eqb c "<"%char) && negb (Ascii.eqb c "#"%char).

Fixpoint seq (rs : list re) : re :=
  match rs with [] => REmpty | [r] => r | r :: rs' => RSeq r (seq rs') end.

Definition lit_with (f : ascii -> ascii -> bool) (s : string) : re :=
  seq (map (fun ch => RClass (f ch)) (list_ascii_of_string s)).
Definition lit := lit_with chr.
Definition lit_i := lit_with chr_i.

Definition plus (r : re) : re := RRep 1 None true r.
Definition star (r : re) : re := RRep 0 None true r.
Definition lazy_star (r : re) : re := RRep 0 None false r.
Definition lazy_plus (r : re) : re := RRep 1 None false r.
Definition opt (r : re) : re := RRep 0 (Some 1%nat) true r.
Definition ws_star : re := star (RClass is_ws).

(* ------------------------------------------------------------------ *)
(** ** The regular expressions of [RecognitionService] *)

(** [/<@([A-Z0-9]+)>\s*(\+{1,})\s*(.*?)(?:\s*#(\w+))?$/i] *)
Definition single_regex : re :=
  seq [lit_i "<@"; RGroup 1 (plus (RClass upper_digit_i)); lit_i ">";
       ws_star; RGroup 2 (plus (RClass (chr_i "+"))); ws_star;
       RGroup 3 (lazy_star (RClass dot));
       opt (seq [ws_star; lit_i "#"; RGroup 4 (plus (RClass word_char))]);
       REnd].

(** [/((?:<@[A-Z0-9]+>)+)\s*(\+{1,})\s*([^<#]+?)(?:#(\w+))?(?=\s*(?:<@)|$)/gi] *)
Definition multi_regex : re :=
  seq [RGroup 1 (plus (seq [lit_i "<@"; plus (RClass upper_digit_i); lit_i ">"]));
       ws_star; RGroup 2 (plus (RClass (chr_i "+"))); ws_star;
       RGroup 3 (lazy_plus (RClass not_lt_hash));
       opt (seq [lit_i "#"; RGroup 4 (plus (RClass word_char))]);
       RLook (RAlt (seq [ws_star; lit_i "<@"]) REnd)].

(** [/((?:<@[A-Z0-9]+>|<!subteam\^[A-Z0-9]+>)+)\s*(\+{1,})\s*([^<#]+?)(?:#(\w+))?(?=\s*(?:<@|<!subteam\^)|$)/gi] *)
Definition group_regex : re :=
  seq [RGroup 1 (plus (RAlt (seq [lit_i "<@"; plus (RClass upper_digit_i); lit_i ">"])
                            (seq [lit_i "<!subteam^"; plus (RClass upper_digit_i); lit_i ">"])));
       ws_star; RGroup 2 (plus (RClass (chr_i "+"))); ws_star;
       RGroup 3 (lazy_plus (RClass not_lt_hash));
       opt (seq [lit_i "#"; RGroup 4 (plus (RClass word_char))]);
       RLook (RAlt (seq [ws_star; RAlt (lit_i "<@") (lit_i "<!subteam^")]) REnd)].

(** [/<@([A-Z0-9]+)>/g] (no flag [i]) *)
Definition user_mention_regex : re :=
  seq [lit "<@"; RGroup 1 (plus (RClass upper_digit)); lit ">"].

(** [/<!subteam\^([A-Z0-9]+)>/g] (no flag [i]) *)
Definition group_mention_regex : re :=
  seq [lit "<!subteam^"; RGroup 1 (plus (RClass upper_digit)); lit ">"].

(** [[...s.matchAll(R)].map(m => m[1])] *)
Definition ids_of (R : re) (s : string) : list string :=
  let l := list_ascii_of_string s in
  map (fun m => default "" (cap l m 1)) (match_all l R 1).

(* ------------------------------------------------------------------ *)
(** ** [RecognitionService]: the parsers *)

Definition str_empty (s : string) : bool := String.eqb s "".

(** [valueTag ? valueTag.toLowerCase().trim() : 'general'] *)
Definition value_of (valueTag : option string) : string :=
  match valueTag with
  | Some t => if str_empty t then "general" else trim (toLowerCase t)
  | None => "general"
  end.

Definition includes (l : list string) (s : string) : bool := existsb (String.eqb s) l.

Definition tag_truthy (valueTag : option string) : bool :=
  match valueTag with Some t => negb (str_empty t) | None => false end.

(** The body of [parseRecognition] after [text.match(regex)]. *)
Definition single_of_match (cfg : AppConfig) (giverId receiverId plusSymbols reasonText : string)
    (valueTag : option string) : option Recognition :=
  let reason := trim reasonText in
  if str_empty reason && negb (tag_truthy valueTag) then None else
  let v := value_of valueTag in
  if str_empty reason then None else
  if String.eqb receiverId giverId then None else
  if negb (includes (values cfg) v) && negb (String.eqb v "general") then None else
  Some (mkRecognition giverId receiverId reason v (Z.of_nat (String.length plusSymbols))).

Definition parseRecognition (cfg : AppConfig) (text giverId : string) : option Recognition :=
  let l := list_ascii_of_string text in
  match exec l single_regex 4 with
  | None => None
  | Some m =>
      single_of_match cfg giverId (default "" (cap l m 1)) (default "" (cap l m 2))
        (default "" (cap l m 3)) (cap l m 4)
  end.

(** The inner loop [for (const receiverId of mentionedUsers) { ... }]
    shared by [parseRecognitions] and [parseRecognitionsWithGroups]. *)
Fixpoint unit_candidates (cfg : AppConfig) (giverId : string) (mentionedUsers : list string)
    (plusSymbols reasonText : string) (valueTag : option string) : list Recognition :=
  match mentionedUsers with
  | [] => []
  | receiverId :: rest =>
      let later := unit_candidates cfg giverId rest plusSymbols reasonText valueTag in
      if String.eqb receiverId giverId then later else
      let reason := trim reasonText in
      let v := value_of valueTag in
      if negb (String.eqb v "general") && negb (includes (values cfg) v) then later else
      mkRecognition giverId receiverId reason v (Z.of_nat (String.length plusSymbols)) :: later
  end.

Definition parseRecognitions (cfg : AppConfig) (text giverId : string) : list Recognition :=
  let l := list_ascii_of_string text in
  flat_map (fun m =>
    unit_candidates cfg giverId (ids_of user_mention_regex (default "" (cap l m 1)))
      (default "" (cap l m 2)) (default "" (cap l m 3)) (cap l m 4))
    (match_all l multi_regex 4).

(** The mentioned users of one unit of [parseRecognitionsWithGroups];
    [resolve] is [resolveGroupMembers(client, _)], which yields [[]]
    when the lookup fails. *)
Definition mentioned_users (resolve : string -> list string) (mentionGroup : string)
  : list string :=
  let userMatches := ids_of user_mention_regex mentionGroup in
  let groupMatches := ids_of group_mention_regex mentionGroup in
  match userMatches, groupMatches with
  | _ :: _, _ => userMatches
  | [], gid :: _ => resolve gid
  | [], [] => []
  end.

Definition parseRecognitionsWithGroups (cfg : AppConfig) (resolve : string -> list string)
    (text giverId : string) : list Recognition :=
  let l := list_ascii_of_string text in
  flat_map (fun m =>
    unit_candidates cfg giverId (mentioned_users resolve (default "" (cap l m 1)))
      (default "" (cap l m 2)) (default "" (cap l m 3)) (cap l m 4))
    (match_all l group_regex 4).

(* ------------------------------------------------------------------ *)
(** ** [RecognitionService]: the orchestrator *)

(** [for (const recognition of recognitions) { if (!canGivePoints(...))
    continue; await recordRecognition(...); validRecognitions.push(...) }] *)
Fixpoint process_loop (env : Env) (giverId : string) (cands : list Recognition)
  : M (list Recognition) :=
  match cands with
  | [] => mret []
  | rc :: rest =>
      allowed ← canGivePoints env giverId (points rc);
      if (allowed : bool) then
        (recordRecognition env rc ;;
         accepted ← process_loop env giverId rest;
         mret (rc :: accepted))
      else process_loop env giverId rest
  end.

Definition processRecognitions (env : Env) (text giverId : string) : M (list Recognition) :=
  cfg ← getConfig;
  process_loop env giverId (parseRecognitions cfg text giverId).


(* ------------------------------------------------------------------ *)
(** ** [RecognitionService.processRecognition]: one recognition *)


(* ------------------------------------------------------------------ *)
(** ** Numbers and strings of the command answers *)

(** [parseInt(s, 10)]: leading [StrWhiteSpaceChar]s skipped, an optional
    sign, then the longest run of decimal digits; [NaN] (here [None])
    when the run is empty.  The value is exact; JS rounds it to a double
    above 2^53, which does not change any test against 1 below. *)
Fixpoint digit_run (l : list ascii) : list ascii :=
  match l with
  | c :: l' => if is_digit c then c :: digit_run l' else []
  | [] => []
  end.

Definition digits_value (ds : list ascii) : Z :=
  fold_left (fun acc c => 10 * acc + (Z.of_nat (code c) - 48)) ds 0.

Definition parseInt (s : string) : option Z :=
  let l := drop_ws (list_ascii_of_string s) in
  let '(sign, rest) :=
    match l with
    | c :: r => if Ascii.eqb c "-"%char then (-1, r)
                else if Ascii.eqb c "+"%char then (1, r) else (1, l)
    | [] => (1, l)
    end in
  match digit_run rest with
  | [] => None
  | ds => Some (sign * digits_value ds)
  end.

(** [String(n)] for an integer [n]. *)
Fixpoint digits_rev (fuel : nat) (n : Z) : list ascii :=
  match fuel with
  | O => []
  | S f =>
      ascii_of_nat (48 + Z.to_nat (n mod 10))
        :: (if n <? 10 then [] else digits_rev f (n / 10))
  end.

Definition z_to_string (n : Z) : string :=
  let m := Z.abs n in
  let ds := string_of_list_ascii (rev (digits_rev (S (Z.to_nat (Z.log2 m))) m)) in
  if n <? 0 then ("-" ++ ds)%string else ds.

(** The double quote of the template literals. *)
Definition dq : string := String (ascii_of_nat 34) EmptyString.

(* ------------------------------------------------------------------ *)
(** ** [CommandService] ([src/services/commandService.ts])

    [adminUsers] is the list given to the constructor.  The data of the
    answers of [redeemReward] is [{ reward, user }]. *)

Record CommandResult := mkResult {
  success : bool;
  message : string;
  data : option (Reward * UserRecord)
}.

(** [^<@([A-Z0-9]+)>$] and [^U[A-Z0-9]+$] (no flag).  Without the flag
    [m], [^] only holds at index 0, so the scan of [match] and [test]
    can only succeed at index 0: [match_at] there is the whole search. *)
Definition reset_target_regex : re :=
  seq [lit "<@"; RGroup 1 (plus (RClass upper_digit)); lit ">"; REnd].

Definition slack_user_id_regex : re :=
  seq [lit "U"; plus (RClass upper_digit); REnd].

Definition regex_test (R : re) (s : string) : bool :=
  match match_at (list_ascii_of_string s) R 0 0 with Some _ => true | None => false end.

(** [DataService.getAllUsers] keys, in the order [Object.keys] lists
    them; the gmap's order stands for the insertion order. *)
Definition user_keys (us : gmap string UserRecord) : list string :=
  map fst (map_to_list us).

(** [for (const userId of ...) await this.dataService.resetUserPoints(userId)] *)
Fixpoint reset_loop (env : Env) (ids : list string) : M unit :=
  match ids with
  | [] => mret ()
  | u :: rest => resetUserPoints env u ;; reset_loop env rest
  end.

Module CommandService.

Definition isAdmin (adminUsers : list string) (userId : string) : bool :=
  includes adminUsers userId.

Definition answer (ok : bool) (msg : string) : M CommandResult :=
  mret (mkResult ok msg None).

(** [!value || value.trim() === ''] *)
Definition blank (s : string) : bool := str_empty s || str_empty (trim s).

Definition setDailyLimit (adminUsers : list string) (env : Env) (userId limitStr : string)
  : M CommandResult :=
  if negb (isAdmin adminUsers userId) then
    answer false "Only admins can change the daily limit"
  else
    match parseInt limitStr with
    | Some limit =>
        if limit <? 1 then answer false "Please provide a valid number for the daily limit"
        else (setDailyLimit env limit ;;
              answer true ("Daily limit set to " ++ z_to_string limit ++ " points")%string)
    | None => answer false "Please provide a valid number for the daily limit"
    end.

Definition addValue (adminUsers : list string) (env : Env) (userId v : string)
  : M CommandResult :=
  if negb (isAdmin adminUsers userId) then answer false "Only admins can add company values"
  else if blank v then answer false "Please provide a valid value name"
  else
    let normalizedValue := trim (toLowerCase v) in
    (addValue env normalizedValue ;;
     answer true ("Added " ++ dq ++ normalizedValue ++ dq ++ " to company values")%string).

Definition removeValue (adminUsers : list string) (env : Env) (userId v : string)
  : M CommandResult :=
  if negb (isAdmin adminUsers userId) then answer false "Only admins can remove company values"
  else if blank v then answer false "Please provide a valid value name"
  else
    let normalizedValue := trim (toLowerCase v) in
    (removeValue env normalizedValue ;;
     answer true ("Removed " ++ dq ++ normalizedValue ++ dq ++ " from company values")%string).

Definition addReward (adminUsers : list string) (env : Env) (userId n costStr : string)
  : M CommandResult :=
  if negb (isAdmin adminUsers userId) then answer false "Only admins can add rewards"
  else if blank n then answer false "Please provide a valid reward name"
  else
    match parseInt costStr with
    | Some k =>
        if k <? 1 then answer false "Please provide a valid cost for the reward"
        else (addReward env n k ;;
              answer true ("Added reward " ++ dq ++ n ++ dq ++ " with cost "
                           ++ z_to_string k ++ " points")%string)
    | None => answer false "Please provide a valid cost for the reward"
    end.

Definition removeReward (adminUsers : list string) (env : Env) (userId n : string)
  : M CommandResult :=
  if negb (isAdmin adminUsers userId) then answer false "Only admins can remove rewards"
  else if blank n then answer false "Please provide a valid reward name"
  else (removeReward env n ;;
        answer true ("Removed reward " ++ dq ++ n ++ dq)%string).

(** [resolveUserId(client, target)] is the parameter [resolveUserId]:
    the id of the Slack member of that name, or [null] ([None]). *)
Definition resetPoints (adminUsers : list string) (env : Env)
    (resolveUserId : string -> option string) (requesterId target : string)
  : M CommandResult :=
  if negb (includes adminUsers requesterId) then answer false "Only admins can reset points."
  else
    let l := list_ascii_of_string target in
    let invalid := answer false ("Invalid user identifier: " ++ target)%string in
    let reset userId :=
      (getUserRecord env userId ;;
       resetUserPoints env userId ;;
       answer true ("Points for " ++ target ++ " have been reset.")%string) in
    match match_at l reset_target_regex 1 0 with
    | Some m => reset (default "" (cap l m 1))
    | None =>
        match resolveUserId target with
        | Some userId =>
            if str_empty userId || negb (regex_test slack_user_id_regex userId) then invalid
            else reset userId
        | None => invalid
        end
    end.

Definition resetAllPoints (adminUsers : list string) (env : Env) (requesterId : string)
  : M CommandResult :=
  if negb (isAdmin adminUsers requesterId) then answer false "Only admins can reset all points."
  else
    (s ← get_state;
     reset_loop env (user_keys (users s)) ;;
     answer true "All user points have been reset.").

Definition redeemReward (env : Env) (userId rewardName : string) : M CommandResult :=
  cfg ← getConfig;
  match getReward cfg rewardName with
  | None => answer false ("Reward " ++ dq ++ rewardName ++ dq ++ " not found")%string
  | Some reward =>
      user ← getUserRecord env userId;
      if total user <? cost reward then
        answer false ("You don't have enough points. This reward costs " ++ z_to_string (cost reward)
                      ++ " points, but you only have " ++ z_to_string (total user) ++ ".")%string
      else
        (ok ← redeemReward env userId rewardName;
         if (ok : bool) then
           mret (mkResult true ("You've redeemed " ++ dq ++ rewardName ++ dq ++ " for "
                                ++ z_to_string (cost reward) ++ " points! Your new balance is "
                                ++ z_to_string (total user - cost reward) ++ " points.")%string
                          (Some (reward, user)))
         else answer false "Failed to redeem reward. Please try again.")
  end.

End CommandService.

(* ------------------------------------------------------------------ *)
(** ** The data of [buildHomeView] ([src/views/homeView.ts])

    [Object.entries(users)] is taken in the gmap's order.  [sort] with
    the comparator [(a, b) => b.total - a.total] is stable (ES2019), so
    its result is the stable insertion sort by decreasing [total]. *)

Fixpoint insert_desc (e : string * UserRecord) (l : list (string * UserRecord))
  : list (string * UserRecord) :=
  match l with
  | [] => [e]
  | x :: l' => if total (snd x) <? total (snd e) then e :: l else x :: insert_desc e l'
  end.

Definition sort_desc (l : list (string * UserRecord)) : list (string * UserRecord) :=
  fold_left (fun acc e => insert_desc e acc) l [].

Definition userEntries (us : gmap string UserRecord) : list (string * UserRecord) :=
  sort_desc (map_to_list us).

(** [userEntries.findIndex(entry => entry.id === userId)] *)
Definition currentUserPosition (us : gmap string UserRecord) (userId : string) : Z :=
  match list_find (fun e => fst e = userId) (userEntries us) with
  | Some (i, _) => Z.of_nat i
  | None => -1
  end.

Definition currentUserData (us : gmap string UserRecord) (userId : string) : UserRecord :=
  default (mkUser 0 ∅ 0 "") (us !! userId).

(** The lines of the section "Recognition Leaderboard". *)
Definition leaderboard_lines (us : gmap string UserRecord) : list string :=
  imap (fun index e => "*" ++ z_to_string (Z.of_nat index + 1) ++ ".* <@" ++ fst e
                         ++ "> - *" ++ z_to_string (total (snd e)) ++ "* points")%string
       (take 10 (userEntries us)).

(** [currentUserPosition > -1 ? currentUserPosition + 1 : 'N/A'] *)
Definition position_text (us : gmap string UserRecord) (userId : string) : string :=
  let p := currentUserPosition us userId in
  if -1 <? p then z_to_string (p + 1) else "N/A".

(** [currentUserData.byValue[value] || 0], for each configured value. *)
Definition points_by_value (us : gmap string UserRecord) (vals : list string) (userId : string)
  : list Z :=
  map (fun v => default 0 (byValue (currentUserData us userId) !! v)) vals.

(* ------------------------------------------------------------------ *)
(** ** [DataService.normalizeUserIds]

    [members] is what [client.users.list()] yields: [None] when
    [!result.ok || !result.members], otherwise the [(name, id)] of each
    member.  [getAllUsers()] returns a shallow copy, so the loop runs
    over the entries the ledger had before the call, while the writes go
    to [this.state.users]. *)








(* ------------------------------------------------------------------ *)
(** ** The effect of the ledger operations on the store *)

Definition giver_reset (t : string) (u : UserRecord) : UserRecord :=
  if String.eqb (lastReset u) t then u else set_lastReset t (set_dailyGiven 0 u).

Definition giver_update (t : string) (p : Z) (u : UserRecord) : UserRecord :=
  (fun u => set_dailyGiven (dailyGiven u + p) u) (giver_reset t u).

Definition byValue_init (v : string) (u : UserRecord) : UserRecord :=
  if truthy (byValue u !! v) then u else set_byValue (<[v := 0]> (byValue u)) u.

Definition receiver_update (v : string) (p : Z) (u : UserRecord) : UserRecord :=
  (fun u => set_byValue (<[v := default 0 (byValue u !! v) + p]> (byValue u)) u)
    (byValue_init v ((fun u => set_total (total u + p) u) u)).

Definition rec_users (t : string) (rc : Recognition) (us : gmap string UserRecord)
  : gmap string UserRecord :=
  alter (receiver_update (value rc) (points rc)) (receiver rc)
    (ensure_user t (receiver rc)
       (alter (giver_update t (points rc)) (giver rc)
          (ensure_user t (giver rc) us))).

(** The outcome of [saveState] after the in-memory state became [s']. *)
Definition saved (env : Env) (L : Ledger) (s' : AppState) : result unit * Ledger :=
  if storage_ok env then (Ok tt, mkLedger s' s')
  else (Err "Failed to save data", mkLedger s' (disk L)).

Lemma alter_alter_same {A} (f g : A -> A) (k : string) (m : gmap string A) :
  alter f k (alter g k m) = alter (fun x => f (g x)) k m.
Proof.
  apply map_eq; intros j. rewrite !lookup_alter.
  repeat case_decide; subst; try done. by destruct (m !! j).
Qed.

(** Unfold the monad and the primitive steps of the ledger. *)
Ltac run_M :=
  unfold getConfig, getUserRecord in *;
  unfold modify_users, modify_config, saveState,
    saved, get_state, put_state, set_users, set_config in *;
  unfold mbind, mret, M_bind, M_ret in *;
  cbn -[alter insert lookup] in *.

Lemma recordRecognition_run env rc L :
  recordRecognition env rc L =
  saved env L (set_users (rec_users (today env) rc (users (state L))) (state L)).
Proof.
  destruct L as [[c us] d]. unfold recordRecognition. run_M.
  rewrite !alter_alter_same. reflexivity.
Qed.

Lemma ensure_user_lookup_eq t id us :
  ensure_user t id us !! id = Some (default (fresh_user t) (us !! id)).
Proof.
  unfold ensure_user. destruct (us !! id) eqn:E; [done|]. by rewrite lookup_insert_eq.
Qed.

Lemma ensure_user_lookup_ne t id k us :
  id ≠ k -> ensure_user t id us !! k = us !! k.
Proof.
  intros Hne. unfold ensure_user. destruct (us !! id); [done|]. by rewrite lookup_insert_ne.
Qed.

Lemma ensure_user_lookup t id k us :
  ensure_user t id us !! k =
  if decide (id = k) then Some (default (fresh_user t) (us !! id)) else us !! k.
Proof.
  case_decide; subst; [apply ensure_user_lookup_eq | by apply ensure_user_lookup_ne].
Qed.

Lemma rec_users_lookup t rc us k :
  rec_users t rc us !! k =
  if decide (receiver rc = k) then
    Some (receiver_update (value rc) (points rc)
            (default (fresh_user t)
               ((alter (giver_update t (points rc)) (giver rc)
                   (ensure_user t (giver rc) us)) !! k)))
  else if decide (giver rc = k) then
    Some (giver_update t (points rc) (default (fresh_user t) (us !! k)))
  else us !! k.
Proof.
  unfold rec_users. rewrite lookup_alter.
  case_decide as Hr.
  - subst. by rewrite ensure_user_lookup_eq.
  - rewrite ensure_user_lookup_ne by done. rewrite lookup_alter.
    case_decide; subst; [by rewrite ensure_user_lookup_eq | by rewrite ensure_user_lookup_ne].
Qed.

Lemma receiver_update_eq v p u :
  receiver_update v p u =
  mkUser (total u + p) (<[v := default 0 (byValue u !! v) + p]> (byValue u))
         (dailyGiven u) (lastReset u).
Proof.
  destruct u as [tot bv dg lr]. unfold receiver_update, byValue_init, truthy. cbn.
  destruct (bv !! v) as [n|] eqn:E; cbn.
  - destruct (n =? 0) eqn:En; cbn.
    + apply Z.eqb_eq in En. subst. rewrite lookup_insert_eq, insert_insert_eq. done.
    + by rewrite E.
  - rewrite lookup_insert_eq, insert_insert_eq. done.
Qed.

Lemma giver_update_eq t p u :
  giver_update t p u =
  mkUser (total u) (byValue u)
         ((if String.eqb (lastReset u) t then dailyGiven u else 0) + p) t.
Proof.
  destruct u as [tot bv dg lr]. unfold giver_update, giver_reset. cbn.
  destruct (String.eqb lr t) eqn:E; cbn; [|done].
  apply String.eqb_eq in E. by subst.
Qed.

(** C2: for a giver [G] and a receiver [R <> G], [recordRecognition]
    creates either record when missing, rolls the giver's [dailyGiven]
    over to 0 and [lastReset] to today when the stored date differs, adds
    [points] to the giver's [dailyGiven], to the receiver's [total] and to
    its [byValue[value]], writes the whole state to disk, and changes no
    other field and no other record. *)
Theorem recordRecognition_updates (t : string) (L : Ledger) (rc : Recognition)
    (Hne : giver rc <> receiver rc) :
  let us := users (state L) in
  let gu := default (fresh_user t) (us !! giver rc) in
  let ru := default (fresh_user t) (us !! receiver rc) in
  let L' := snd (recordRecognition (mkEnv t true) rc L) in
  fst (recordRecognition (mkEnv t true) rc L) = Ok tt /\
  disk L' = state L' /\
  config (state L') = config (state L) /\
  users (state L') !! giver rc =
    Some (mkUser (total gu) (byValue gu)
            ((if String.eqb (lastReset gu) t then dailyGiven gu else 0) + points rc) t) /\
  users (state L') !! receiver rc =
    Some (mkUser (total ru + points rc)
            (<[value rc := default 0 (byValue ru !! value rc) + points rc]> (byValue ru))
            (dailyGiven ru) (lastReset ru)) /\
  (forall k, k <> giver rc -> k <> receiver rc -> users (state L') !! k = us !! k).
Proof.
  cbv zeta. rewrite recordRecognition_run. unfold saved. cbn.
  split; [done|]. split; [done|]. split; [done|].
  rewrite !rec_users_lookup.
  split; [|split].
  - rewrite decide_False by congruence. rewrite decide_True by done.
    by rewrite giver_update_eq.
  - rewrite decide_True by done. rewrite lookup_alter_ne by done.
    rewrite ensure_user_lookup_ne by done. by rewrite receiver_update_eq.
  - intros k Hg Hr. rewrite rec_users_lookup.
    rewrite decide_False by congruence. by rewrite decide_False by congruence.
Qed.

Lemma recordRecognition_updates_witness :
  "UG" <> "UR" /\
  fst (recordRecognition (mkEnv "2026-10-15" true)
         (mkRecognition "UG" "UR" "thanks" "teamwork" 3)
         (mkLedger default_state default_state)) = Ok tt.
Proof.
  split; [discriminate|].
  exact (proj1 (recordRecognition_updates "2026-10-15" (mkLedger default_state default_state)
                  (mkRecognition "UG" "UR" "thanks" "teamwork" 3) ltac:(discriminate))).
Defined.

Lemma canGivePoints_run env g p L :
  let r := default (fresh_user (today env)) (users (state L) !! g) in
  canGivePoints env g p L =
  (Ok (negb (String.eqb (lastReset r) (today env))
       || (dailyGiven r + p <=? dailyLimit (config (state L)))),
   mkLedger (mkState (config (state L)) (ensure_user (today env) g (users (state L))))
            (disk L)).
Proof.
  destruct L as [[c us] d]. unfold canGivePoints. run_M.
  rewrite ensure_user_lookup_eq. cbn.
  destruct (String.eqb _ _); reflexivity.
Qed.

(** C3: [canGivePoints g p] is [true] exactly when [g]'s [lastReset] is
    not today or [dailyGiven + p <= dailyLimit]; it is a query: for a
    known [g] the ledger is left exactly as it was (no rollover of
    [dailyGiven] or [lastReset]); for an unknown [g] the only change is
    the materialized fresh record that the test reads. *)
Theorem canGivePoints_query (env : Env) (L : Ledger) (g : string) (p : Z) :
  let r := default (fresh_user (today env)) (users (state L) !! g) in
  fst (canGivePoints env g p L) =
    Ok (negb (String.eqb (lastReset r) (today env))
        || (dailyGiven r + p <=? dailyLimit (config (state L)))) /\
  (fst (canGivePoints env g p L) = Ok true <->
     lastReset r <> today env \/ dailyGiven r + p <= dailyLimit (config (state L))) /\
  snd (canGivePoints env g p L) =
    match users (state L) !! g with
    | Some _ => L
    | None => mkLedger (mkState (config (state L))
                          (<[g := fresh_user (today env)]> (users (state L)))) (disk L)
    end /\
  users (state (snd (canGivePoints env g p L))) !! g = Some r.
Proof.
  cbv zeta. rewrite canGivePoints_run. cbn.
  split; [done|]. split; [|split].
  - split.
    + intros H. injection H as H. apply orb_true_iff in H as [H|H].
      * left. apply negb_true_iff, String.eqb_neq in H. done.
      * right. by apply Z.leb_le.
    + intros [H|H]; f_equal; apply orb_true_iff.
      * left. apply negb_true_iff, String.eqb_neq. done.
      * right. by apply Z.leb_le.
  - destruct L as [[c us] d]. unfold ensure_user. cbn.
    by destruct (us !! g).
  - by rewrite ensure_user_lookup_eq.
Qed.

(** C10: for an id [u] without a record, [canGivePoints u p]
    materializes the fresh record [{total: 0, byValue: {}, dailyGiven: 0,
    lastReset: today}] for [u], changes nothing else, and answers
    [p <= dailyLimit]. *)
Theorem canGivePoints_unknown_user (env : Env) (L : Ledger) (u : string) (p : Z)
    (Hnone : users (state L) !! u = None) :
  snd (canGivePoints env u p L) =
    mkLedger (mkState (config (state L))
                (<[u := mkUser 0 ∅ 0 (today env)]> (users (state L)))) (disk L) /\
  (forall k, k <> u ->
     users (state (snd (canGivePoints env u p L))) !! k = users (state L) !! k) /\
  fst (canGivePoints env u p L) = Ok (p <=? dailyLimit (config (state L))).
Proof.
  rewrite canGivePoints_run. cbn. unfold ensure_user. rewrite Hnone. cbn.
  split; [done|]. split.
  - intros k Hk. by rewrite lookup_insert_ne by congruence.
  - by rewrite String.eqb_refl.
Qed.

Lemma canGivePoints_unknown_user_witness :
  users (state (mkLedger default_state default_state)) !! "UX" = None /\
  fst (canGivePoints (mkEnv "2026-10-15" true) "UX" 3 (mkLedger default_state default_state))
    = Ok true.
Proof.
  split; [reflexivity|].
  exact (proj2 (proj2 (canGivePoints_unknown_user (mkEnv "2026-10-15" true)
                          (mkLedger default_state default_state) "UX" 3 eq_refl))).
Defined.

Lemma redeemReward_run env u n L :
  redeemReward env u n L =
  match getReward (config (state L)) n with
  | None => (Ok false, L)
  | Some rw =>
      let r := default (fresh_user (today env)) (users (state L) !! u) in
      let us1 := ensure_user (today env) u (users (state L)) in
      if total r <? cost rw
      then (Ok false, mkLedger (mkState (config (state L)) us1) (disk L))
      else
        let s' := mkState (config (state L))
                    (alter (fun x => set_total (total x - cost rw) x) u us1) in
        if storage_ok env then (Ok true, mkLedger s' s')
        else (Err "Failed to save data", mkLedger s' (disk L))
  end.
Proof.
  destruct L as [[c us] d]. unfold redeemReward. run_M.
  destruct (getReward c n) as [rw|]; [|done]. run_M.
  rewrite ensure_user_lookup_eq. cbn.
  destruct (total _ <? cost rw); [done|]. cbn.
  by destruct (storage_ok env).
Qed.

Lemma ensure_user_insert_default t u us :
  ensure_user t u us = <[u := default (fresh_user t) (us !! u)]> us.
Proof.
  unfold ensure_user. destruct (us !! u) eqn:E; [|done].
  cbn. by rewrite insert_id.
Qed.

(** C5, as the code has it: an unknown reward leaves the ledger as it
    was; an insufficient [total] answers [false] without changing any
    existing record, but [getUserRecord] has materialized a fresh record
    for a user that had none; otherwise exactly [cost] is deducted from
    the user's [total], nothing else changes, the state is saved and the
    answer is [true]. *)
Theorem redeemReward_outcome (t : string) (L : Ledger) (U n : string) :
  let us := users (state L) in
  let r := default (fresh_user t) (us !! U) in
  let res := redeemReward (mkEnv t true) U n L in
  match getReward (config (state L)) n with
  | None => res = (Ok false, L)
  | Some rw =>
      if total r <? cost rw then
        fst res = Ok false /\ disk (snd res) = disk L /\
        state (snd res) = mkState (config (state L)) (<[U := r]> us)
      else
        fst res = Ok true /\ disk (snd res) = state (snd res) /\
        state (snd res) = mkState (config (state L)) (<[U := set_total (total r - cost rw) r]> us)
  end.
Proof.
  cbv zeta. rewrite redeemReward_run.
  destruct (getReward _ n) as [rw|]; [|done]. cbn.
  rewrite ensure_user_insert_default.
  destruct (total _ <? cost rw); cbn; [by repeat split|].
  rewrite alter_insert_eq. by repeat split.
Qed.

(** The two redemptions of the spec, with a reward "Coffee" of cost 50. *)
Definition coffee_ledger (tot : Z) : Ledger :=
  let s := mkState (mkConfig 5 default_values [mkReward "Coffee" 50])
                   {[ "U" := mkUser tot {[ "general" := tot ]} 0 "2026-10-15" ]} in
  mkLedger s s.

Example redeemReward_examples :
  redeemReward (mkEnv "2026-10-15" true) "U" "Coffee" (coffee_ledger 30)
    = (Ok false, coffee_ledger 30) /\
  fst (redeemReward (mkEnv "2026-10-15" true) "U" "Coffee" (coffee_ledger 100)) = Ok true /\
  option_map total (users (state (snd (redeemReward (mkEnv "2026-10-15" true) "U" "Coffee"
                                        (coffee_ledger 100)))) !! "U") = Some 50.
Proof. split; [|split]; vm_compute; reflexivity. Qed.

(** C5 as stated fails: with a known reward and a user without a record,
    [redeemReward] answers [false] but the store has gained a record. *)
Lemma redeemReward_not_unchanged_cex :
  fst (redeemReward (mkEnv "2026-10-15" true) "UX" "Coffee Voucher"
         (mkLedger default_state default_state)) = Ok false /\
  users (state (snd (redeemReward (mkEnv "2026-10-15" true) "UX" "Coffee Voucher"
                       (mkLedger default_state default_state))))
    <> users default_state.
Proof.
  split; [reflexivity|].
  intros H. apply (f_equal (fun us : gmap string UserRecord => us !! "UX")) in H.
  vm_compute in H. discriminate.
Qed.

(* ------------------------------------------------------------------ *)
(** ** The per-user total and the per-value tally *)

(** [sum(byValue.values())] *)
Definition sum_values (bv : gmap string Z) : Z :=
  map_fold (fun _ v acc => v + acc) 0 bv.

(** The spec's invariant [total == sum(byValue.values())], and the
    inequality that redemptions leave. *)
Definition total_is_sum (u : UserRecord) : Prop := total u = sum_values (byValue u).
Definition total_le_sum (u : UserRecord) : Prop := total u <= sum_values (byValue u).

Definition all_users (P : UserRecord -> Prop) (us : gmap string UserRecord) : Prop :=
  forall k u, us !! k = Some u -> P u.

Lemma sum_values_empty : sum_values ∅ = 0.
Proof. apply map_fold_empty. Qed.

Lemma sum_values_insert k x bv :
  sum_values (<[k := x]> bv) = x + sum_values bv - default 0 (bv !! k).
Proof.
  unfold sum_values.
  destruct (bv !! k) as [y|] eqn:E; cbn.
  - rewrite (map_fold_delete_L _ _ k y bv) by (intros; lia || done).
    rewrite <- insert_delete_eq.
    rewrite map_fold_insert_L by (intros; lia || by rewrite lookup_delete_eq).
    lia.
  - rewrite map_fold_insert_L by (intros; lia || done). lia.
Qed.

Lemma all_users_ensure P t id us :
  P (fresh_user t) -> all_users P us -> all_users P (ensure_user t id us).
Proof.
  intros Hf Hall k u. rewrite ensure_user_lookup. case_decide; [|apply Hall].
  subst. destruct (us !! k) eqn:E; cbn; intros [= <-]; [by eapply Hall | done].
Qed.

Lemma all_users_alter P f id us :
  (forall u, P u -> P (f u)) -> all_users P us -> all_users P (alter f id us).
Proof.
  intros Hf Hall k u. rewrite lookup_alter. case_decide; [|apply Hall].
  subst. destruct (us !! k) eqn:E; cbn; intros [= <-]. by eapply Hf, Hall.
Qed.

Lemma fresh_total_is_sum t : total_is_sum (fresh_user t).
Proof. unfold total_is_sum. cbn. by rewrite sum_values_empty. Qed.

Lemma fresh_total_le_sum t : total_le_sum (fresh_user t).
Proof. unfold total_le_sum. cbn. rewrite sum_values_empty. lia. Qed.

Lemma getUserRecord_run env u L :
  getUserRecord env u L =
  (Ok (default (fresh_user (today env)) (users (state L) !! u)),
   mkLedger (mkState (config (state L)) (ensure_user (today env) u (users (state L))))
            (disk L)).
Proof.
  destruct L as [[c us] d]. run_M. by rewrite ensure_user_lookup_eq.
Qed.

Definition reset_fields (t : string) (u : UserRecord) : UserRecord :=
  set_lastReset t (set_dailyGiven 0 (set_byValue ∅ (set_total 0 u))).

Lemma resetUserPoints_run env u L :
  resetUserPoints env u L =
  saved env L (mkState (config (state L))
                 (alter (reset_fields (today env)) u
                    (ensure_user (today env) u (users (state L))))).
Proof.
  destruct L as [[c us] d]. unfold resetUserPoints. run_M.
  rewrite !alter_alter_same. reflexivity.
Qed.

Lemma saved_state env L s : state (snd (saved env L s)) = s.
Proof. unfold saved. by destruct (storage_ok env). Qed.

Section Preservation.
Variable P : UserRecord -> Prop.
Hypothesis P_fresh : forall t, P (fresh_user t).

Lemma getUserRecord_preserves env u L :
  all_users P (users (state L)) -> all_users P (users (state (snd (getUserRecord env u L)))).
Proof. intros H. rewrite getUserRecord_run. cbn. apply all_users_ensure; eauto. Qed.

Lemma canGivePoints_preserves env u p L :
  all_users P (users (state L)) -> all_users P (users (state (snd (canGivePoints env u p L)))).
Proof. intros H. rewrite canGivePoints_run. cbn. apply all_users_ensure; eauto. Qed.

Lemma recordRecognition_preserves env rc L :
  (forall t p u, P u -> P (giver_update t p u)) ->
  (forall v p u, P u -> P (receiver_update v p u)) ->
  all_users P (users (state L)) -> all_users P (users (state (snd (recordRecognition env rc L)))).
Proof.
  intros Hg Hr H. rewrite recordRecognition_run, saved_state. cbn. unfold rec_users.
  apply all_users_alter; [eauto|]. apply all_users_ensure; [eauto|].
  apply all_users_alter; [eauto|]. apply all_users_ensure; eauto.
Qed.

Lemma resetUserPoints_preserves env u L :
  (forall t u, P (reset_fields t u)) ->
  all_users P (users (state L)) -> all_users P (users (state (snd (resetUserPoints env u L)))).
Proof.
  intros Hz H. rewrite resetUserPoints_run, saved_state. cbn.
  apply all_users_alter; [eauto|]. apply all_users_ensure; eauto.
Qed.
End Preservation.

Lemma receiver_update_total_is_sum v p u :
  total_is_sum u -> total_is_sum (receiver_update v p u).
Proof.
  unfold total_is_sum. rewrite receiver_update_eq. cbn. rewrite sum_values_insert. lia.
Qed.

Lemma receiver_update_total_le_sum v p u :
  total_le_sum u -> total_le_sum (receiver_update v p u).
Proof.
  unfold total_le_sum. rewrite receiver_update_eq. cbn. rewrite sum_values_insert. lia.
Qed.

Lemma redeemReward_preserves_le env u n L :
  (forall rw, In rw (rewards (config (state L))) -> 0 <= cost rw) ->
  all_users total_le_sum (users (state L)) ->
  all_users total_le_sum (users (state (snd (redeemReward env u n L)))).
Proof.
  intros Hc H. rewrite redeemReward_run.
  destruct (getReward _ n) as [rw|] eqn:Er; [|done].
  assert (0 <= cost rw).
  { apply Hc. unfold getReward in Er. by apply find_some in Er as [? _]. }
  cbn. destruct (_ <? _).
  - cbn. by apply all_users_ensure; [apply fresh_total_le_sum|].
  - assert (Hs : forall s', all_users total_le_sum (users s') ->
               all_users total_le_sum (users (state (snd
                 (if storage_ok env then (Ok true, mkLedger s' s')
                  else (Err "Failed to save data", mkLedger s' (disk L))))))).
    { intros s' Hs'. by destruct (storage_ok env). }
    apply Hs. cbn. apply all_users_alter.
    + intros x. unfold total_le_sum. cbn. lia.
    + by apply all_users_ensure; [apply fresh_total_le_sum|].
Qed.

Lemma giver_update_keeps P t p u :
  (forall u', total u' = total u -> byValue u' = byValue u -> P u') ->
  P (giver_update t p u).
Proof. intros HP. apply HP; by rewrite giver_update_eq. Qed.

(** C1 as stated fails: a redemption lowers [total] and leaves [byValue]
    as it was, so a record with [total == sum(byValue)] loses it. *)
Lemma redeemReward_breaks_total_is_sum_cex :
  all_users total_is_sum (users (state (coffee_ledger 100))) /\
  ~ all_users total_is_sum
      (users (state (snd (redeemReward (mkEnv "2026-10-15" true) "U" "Coffee"
                            (coffee_ledger 100))))).
Proof.
  split.
  - intros k u Hk. cbn in Hk. apply lookup_singleton_Some in Hk as [_ <-].
    unfold total_is_sum. vm_compute. reflexivity.
  - intros H.
    assert (Hl : users (state (snd (redeemReward (mkEnv "2026-10-15" true) "U" "Coffee"
                                     (coffee_ledger 100)))) !! "U"
                 = Some (mkUser 50 ({[ "general" := 100 ]} : gmap string Z) 0 "2026-10-15"))
      by (vm_compute; reflexivity).
    specialize (H "U" _ Hl).
    vm_compute in H. discriminate.
Qed.

(** C1, as the code has it: lazy record creation ([getUserRecord],
    [canGivePoints]), [recordRecognition] and [resetUserPoints] preserve
    [total == sum(byValue.values())] of every record; [redeemReward] does
    not (a redemption lowers [total] only); with non-negative
    reward costs all of them preserve [total <= sum(byValue.values())]. *)
Theorem ledger_total_invariant :
  (forall env L u,
     all_users total_is_sum (users (state L)) ->
     all_users total_is_sum (users (state (snd (getUserRecord env u L))))) /\
  (forall env L u p,
     all_users total_is_sum (users (state L)) ->
     all_users total_is_sum (users (state (snd (canGivePoints env u p L))))) /\
  (forall env L rc,
     all_users total_is_sum (users (state L)) ->
     all_users total_is_sum (users (state (snd (recordRecognition env rc L))))) /\
  (forall env L u,
     all_users total_is_sum (users (state L)) ->
     all_users total_is_sum (users (state (snd (resetUserPoints env u L))))) /\
  (forall env L u,
     all_users total_le_sum (users (state L)) ->
     all_users total_le_sum (users (state (snd (getUserRecord env u L))))) /\
  (forall env L u p,
     all_users total_le_sum (users (state L)) ->
     all_users total_le_sum (users (state (snd (canGivePoints env u p L))))) /\
  (forall env L rc,
     all_users total_le_sum (users (state L)) ->
     all_users total_le_sum (users (state (snd (recordRecognition env rc L))))) /\
  (forall env L u,
     all_users total_le_sum (users (state L)) ->
     all_users total_le_sum (users (state (snd (resetUserPoints env u L))))) /\
  (forall env L u n,
     (forall rw, In rw (rewards (config (state L))) -> 0 <= cost rw) ->
     all_users total_le_sum (users (state L)) ->
     all_users total_le_sum (users (state (snd (redeemReward env u n L))))).
Proof.
  assert (Zs : forall t u, total_is_sum (reset_fields t u)).
  { intros. unfold total_is_sum. cbn. by rewrite sum_values_empty. }
  assert (Zl : forall t u, total_le_sum (reset_fields t u)).
  { intros. unfold total_le_sum. cbn. rewrite sum_values_empty. lia. }
  split; [|split; [|split; [|split; [|split; [|split; [|split; [|split]]]]]]].
  - intros. by apply getUserRecord_preserves; [apply fresh_total_is_sum|].
  - intros. by apply canGivePoints_preserves; [apply fresh_total_is_sum|].
  - intros. apply recordRecognition_preserves; [apply fresh_total_is_sum| | |done].
    + intros t p u Hu. apply giver_update_keeps. intros u' E1 E2.
      unfold total_is_sum, total_le_sum in *. by rewrite E1, E2.
    + intros. by apply receiver_update_total_is_sum.
  - intros. apply resetUserPoints_preserves; [apply fresh_total_is_sum|done|done].
  - intros. by apply getUserRecord_preserves; [apply fresh_total_le_sum|].
  - intros. by apply canGivePoints_preserves; [apply fresh_total_le_sum|].
  - intros. apply recordRecognition_preserves; [apply fresh_total_le_sum| | |done].
    + intros t p u Hu. apply giver_update_keeps. intros u' E1 E2.
      unfold total_is_sum, total_le_sum in *. by rewrite E1, E2.
    + intros. by apply receiver_update_total_le_sum.
  - intros. apply resetUserPoints_preserves; [apply fresh_total_le_sum|done|done].
  - intros. by apply redeemReward_preserves_le.
Qed.

Lemma ledger_total_invariant_witness :
  (forall rw, In rw (rewards (config (state (coffee_ledger 100)))) -> 0 <= cost rw) /\
  all_users total_le_sum (users (state (coffee_ledger 100))) /\
  all_users total_le_sum
    (users (state (snd (redeemReward (mkEnv "2026-10-15" true) "U" "Coffee"
                          (coffee_ledger 100))))).
Proof.
  assert (Hc : forall rw, In rw (rewards (config (state (coffee_ledger 100)))) -> 0 <= cost rw).
  { intros rw [<-|[]]. cbn. lia. }
  assert (Hl : all_users total_le_sum (users (state (coffee_ledger 100)))).
  { intros k u Hk. cbn in Hk. apply lookup_singleton_Some in Hk as [_ <-].
    unfold total_le_sum. vm_compute. discriminate. }
  split; [exact Hc|]. split; [exact Hl|].
  destruct ledger_total_invariant as (_ & _ & _ & _ & _ & _ & _ & _ & Hr).
  exact (Hr (mkEnv "2026-10-15" true) (coffee_ledger 100) "U" "Coffee" Hc Hl).
Defined.

(* ------------------------------------------------------------------ *)
(** ** Persistence failures *)

(** Running [op] when the write fails throws [Failed to save data],
    keeps the in-memory state the successful run would have produced,
    and leaves the disk as it was. *)
Definition fails_after_mutation {A} (op : Env -> M A) (t : string) (L : Ledger) : Prop :=
  op (mkEnv t false) L =
  (Err "Failed to save data", mkLedger (state (snd (op (mkEnv t true) L))) (disk L)).

(** C9: on a failed write every mutating operation of the ledger reports
    the error to its caller after having mutated the in-memory state.
    [redeemReward] and [addValue] write only on their mutating path; on
    the other path they do not touch the disk and cannot fail. *)
Theorem save_failure_propagates (t : string) (L : Ledger) :
  (forall rc, fails_after_mutation (fun env => recordRecognition env rc) t L) /\
  (forall u, fails_after_mutation (fun env => resetUserPoints env u) t L) /\
  (forall u n,
     redeemReward (mkEnv t false) u n L =
     match redeemReward (mkEnv t true) u n L with
     | (Ok true, L') => (Err "Failed to save data", mkLedger (state L') (disk L))
     | r => r
     end) /\
  (forall pt, fails_after_mutation (fun env => updateConfig env pt) t L) /\
  (forall k, fails_after_mutation (fun env => setDailyLimit env k) t L) /\
  (forall v,
     if includes (values (config (state L))) (trim (toLowerCase v))
     then addValue (mkEnv t false) v L = (Ok tt, L) /\ addValue (mkEnv t true) v L = (Ok tt, L)
     else fails_after_mutation (fun env => addValue env v) t L) /\
  (forall v, fails_after_mutation (fun env => removeValue env v) t L) /\
  (forall n k, fails_after_mutation (fun env => addReward env n k) t L) /\
  (forall n, fails_after_mutation (fun env => removeReward env n) t L) /\
  fails_after_mutation resetRewards t L /\
  fails_after_mutation resetValues t L.
Proof.
  unfold fails_after_mutation.
  split; [|split; [|split; [|split; [|split; [|split; [|split; [|split; [|split; [|split]]]]]]]]].
  - intros rc. by rewrite !recordRecognition_run.
  - intros u. by rewrite !resetUserPoints_run.
  - intros u n. rewrite !redeemReward_run.
    destruct (getReward _ n); [|done]. cbn. by destruct (_ <? _).
  - intros pt. destruct L as [[c us] d]. unfold updateConfig. by run_M.
  - intros k. destruct L as [[c us] d]. unfold setDailyLimit. by run_M.
  - intros v. destruct L as [[c us] d]. unfold addValue, includes. run_M.
    by destruct (existsb _ _).
  - intros v. destruct L as [[c us] d]. unfold removeValue. by run_M.
  - intros n k. destruct L as [[c us] d]. unfold addReward. by run_M.
  - intros n. destruct L as [[c us] d]. unfold removeReward. by run_M.
  - destruct L as [[c us] d]. unfold resetRewards. by run_M.
  - destruct L as [[c us] d]. unfold resetValues. by run_M.
Qed.

(* ------------------------------------------------------------------ *)
(** ** The orchestrator *)

Lemma process_loop_sublist t g (cands : list Recognition) (L : Ledger) :
  exists acc, fst (process_loop (mkEnv t true) g cands L) = Ok acc /\
              acc `sublist_of` cands.
Proof.
  revert L. induction cands as [|rc rest IH]; intros L; cbn.
  - exists []. split; [done|]. constructor.
  - unfold mbind at 1, M_bind at 1. rewrite canGivePoints_run.
    destruct (_ || _).
    + unfold mbind at 1, M_bind at 1. rewrite recordRecognition_run. unfold saved. cbn.
      destruct (IH (mkLedger (set_users (rec_users t rc
                   (ensure_user t g (users (state L))))
                   (mkState (config (state L)) (ensure_user t g (users (state L)))))
                 (set_users (rec_users t rc (ensure_user t g (users (state L))))
                   (mkState (config (state L)) (ensure_user t g (users (state L)))))))
        as (acc & Hacc & Hsub).
      unfold mbind, M_bind, mret, M_ret.
      destruct (process_loop _ _ _ _) as [[a|e] L'] eqn:E; cbn in Hacc; [|discriminate].
      injection Hacc as ->. exists (rc :: acc). split; [done|]. by constructor.
    + destruct (IH (mkLedger (mkState (config (state L)) (ensure_user t g (users (state L))))
                             (disk L))) as (acc & Hacc & Hsub).
      exists acc. split; [done|]. by constructor.
Qed.

(** The three recognitions of the spec's daily-limit example, in one
    message from [UG]. *)
Definition limit_text : string := "<@UA> +++ a <@UB> +++ b <@UC> ++ c".

(** C4: [processRecognitions] asks [canGivePoints] again before each
    candidate, in the order the parser emits them, drops a denied one and
    records and returns the allowed ones in that order; with
    [dailyLimit = 5], recognitions of 3, 3 and 2 points from one giver on
    one day: the first is accepted ([dailyGiven] 0 to 3), the second
    refused (3 + 3 > 5), the third accepted (3 + 2 = 5). *)
Theorem processRecognitions_limit_order :
  (forall t L text g,
     exists acc,
       fst (processRecognitions (mkEnv t true) text g L) = Ok acc /\
       acc `sublist_of` parseRecognitions (config (state L)) text g) /\
  (forall env g rc rest L,
     process_loop env g (rc :: rest) L =
     match canGivePoints env g (points rc) L with
     | (Ok true, L1) =>
         match recordRecognition env rc L1 with
         | (Ok _, L2) =>
             match process_loop env g rest L2 with
             | (Ok acc, L3) => (Ok (rc :: acc), L3)
             | (Err e, L3) => (Err e, L3)
             end
         | (Err e, L2) => (Err e, L2)
         end
     | (Ok false, L1) => process_loop env g rest L1
     | (Err e, L1) => (Err e, L1)
     end) /\
  (let L0 := mkLedger default_state default_state in
   let env := mkEnv "2026-10-15" true in
   map points (parseRecognitions (config default_state) limit_text "UG") = [3; 3; 2] /\
   dailyLimit (config default_state) = 5 /\
   option_map dailyGiven (users (state (snd (process_loop env "UG"
       (take 1 (parseRecognitions (config default_state) limit_text "UG")) L0))) !! "UG")
     = Some 3 /\
   fst (canGivePoints env "UG" 3 (snd (process_loop env "UG"
       (take 1 (parseRecognitions (config default_state) limit_text "UG")) L0))) = Ok false /\
   fst (processRecognitions env limit_text "UG" L0) =
     Ok [mkRecognition "UG" "UA" "a" "general" 3; mkRecognition "UG" "UC" "c" "general" 2] /\
   option_map dailyGiven
     (users (state (snd (processRecognitions env limit_text "UG" L0))) !! "UG") = Some 5).
Proof.
  split; [|split].
  - intros t L text g. unfold processRecognitions. run_M. apply process_loop_sublist.
  - intros env g rc rest L. cbn. unfold mbind, M_bind, mret, M_ret.
    destruct (canGivePoints env g (points rc) L) as [[[|]|e] L1]; [|done|done].
    destruct (recordRecognition env rc L1) as [[u|e] L2]; [|done].
    by destruct (process_loop env g rest L2) as [[acc|e] L3].
  - vm_compute. repeat split.
Qed.

(* ------------------------------------------------------------------ *)
(** ** The parsers: self-recognition and value tags *)

Lemma unit_candidates_spec cfg g us ps rt vt c :
  In c (unit_candidates cfg g us ps rt vt) ->
  In (receiver c) us /\ receiver c <> g /\ giver c = g /\ value c = value_of vt /\
  (String.eqb (value_of vt) "general" = true \/ includes (values cfg) (value_of vt) = true).
Proof.
  induction us as [|r rest IH]; cbn; [done|].
  destruct (String.eqb r g) eqn:Eg.
  { intros H. destruct (IH H) as (? & ?). split; [by right|done]. }
  destruct (negb (String.eqb (value_of vt) "general") && negb (includes (values cfg) (value_of vt)))
    eqn:Ev.
  { intros H. destruct (IH H) as (? & ?). split; [by right|done]. }
  intros [<-|H].
  - cbn. apply String.eqb_neq in Eg. split; [by left|]. split; [done|].
    split; [done|]. split; [done|].
    apply andb_false_iff in Ev as [Ev|Ev]; apply negb_false_iff in Ev; auto.
  - destruct (IH H) as (? & ?). split; [by right|done].
Qed.

Lemma single_of_match_spec cfg g r ps rt vt c :
  single_of_match cfg g r ps rt vt = Some c ->
  receiver c = r /\ receiver c <> g /\ giver c = g /\ value c = value_of vt /\
  (String.eqb (value_of vt) "general" = true \/ includes (values cfg) (value_of vt) = true) /\
  points c = Z.of_nat (String.length ps).
Proof.
  unfold single_of_match.
  destruct (str_empty (trim rt) && negb (tag_truthy vt)); [done|].
  destruct (str_empty (trim rt)); [done|].
  destruct (String.eqb r g) eqn:Eg; [done|].
  destruct (negb (includes (values cfg) (value_of vt)) && negb (String.eqb (value_of vt) "general"))
    eqn:Ev; [done|].
  intros [= <-]. cbn. apply String.eqb_neq in Eg.
  repeat split; try done.
  apply andb_false_iff in Ev as [Ev|Ev]; apply negb_false_iff in Ev; auto.
Qed.

Definition resolve_S1 (gid : string) : list string :=
  if String.eqb gid "S1" then ["UA"; "UB"] else [].

(** C7: no entry point of the parser emits a candidate whose receiver is
    the giver; a group resolving to [[A; B]] mentioned by [A] yields the
    one candidate for [B]. *)
Theorem no_self_recognition :
  (forall cfg text g c, parseRecognition cfg text g = Some c -> receiver c <> g) /\
  (forall cfg text g c, In c (parseRecognitions cfg text g) -> receiver c <> g) /\
  (forall cfg resolve text g c,
     In c (parseRecognitionsWithGroups cfg resolve text g) -> receiver c <> g) /\
  resolve_S1 "S1" = ["UA"; "UB"] /\
  parseRecognitionsWithGroups (config default_state) resolve_S1
    "<!subteam^S1> ++ thanks for the help" "UA"
  = [mkRecognition "UA" "UB" "thanks for the help" "general" 2].
Proof.
  split; [|split; [|split; [|split]]].
  - intros cfg text g c. unfold parseRecognition.
    destruct (exec _ _ _); [|done]. intros H. apply single_of_match_spec in H. tauto.
  - intros cfg text g c. unfold parseRecognitions. rewrite in_flat_map.
    intros (m & _ & H). apply unit_candidates_spec in H. tauto.
  - intros cfg resolve text g c. unfold parseRecognitionsWithGroups. rewrite in_flat_map.
    intros (m & _ & H). apply unit_candidates_spec in H. tauto.
  - reflexivity.
  - vm_compute. reflexivity.
Qed.

Lemma no_self_recognition_witness :
  In (mkRecognition "UA" "UB" "thanks for the help" "general" 2)
     (parseRecognitionsWithGroups (config default_state) resolve_S1
        "<!subteam^S1> ++ thanks for the help" "UA") /\
  "UB" <> "UA".
Proof.
  assert (Hin : In (mkRecognition "UA" "UB" "thanks for the help" "general" 2)
                  (parseRecognitionsWithGroups (config default_state) resolve_S1
                     "<!subteam^S1> ++ thanks for the help" "UA"))
    by (vm_compute; left; reflexivity).
  split; [exact Hin|].
  exact (proj1 (proj2 (proj2 no_self_recognition)) _ _ _ _ _ Hin).
Defined.

(** C8: a [#tag] becomes the value lower-cased and trimmed, a missing
    tag the value ["general"]; a unit contributes candidates only when
    its value is in [Config.values] or is ["general"] (accepted even when
    absent from [Config.values]), and a unit with any other tag is
    dropped, in the single-recognition body and in the loop shared by the
    two multi-recognition parsers. *)
Theorem tag_resolution :
  (forall t, t <> "" -> value_of (Some t) = trim (toLowerCase t)) /\
  value_of None = "general" /\
  (forall cfg g us ps rt vt c,
     In c (unit_candidates cfg g us ps rt vt) ->
     value c = value_of vt /\
     (includes (values cfg) (value c) = true \/ value c = "general")) /\
  (forall cfg g us ps rt vt,
     includes (values cfg) (value_of vt) = false -> value_of vt <> "general" ->
     unit_candidates cfg g us ps rt vt = []) /\
  (forall cfg g us ps rt vt,
     value_of vt = "general" ->
     length (unit_candidates cfg g us ps rt vt)
     = length (filter (fun r => negb (String.eqb r g)) us)) /\
  (forall cfg g r ps rt vt c,
     single_of_match cfg g r ps rt vt = Some c ->
     value c = value_of vt /\
     (includes (values cfg) (value c) = true \/ value c = "general")) /\
  (forall cfg g r ps rt vt,
     includes (values cfg) (value_of vt) = false -> value_of vt <> "general" ->
     single_of_match cfg g r ps rt vt = None) /\
  (forall cfg text g c,
     In c (parseRecognitions cfg text g) \/ parseRecognition cfg text g = Some c ->
     includes (values cfg) (value c) = true \/ value c = "general") /\
  (forall cfg resolve text g c,
     In c (parseRecognitionsWithGroups cfg resolve text g) ->
     includes (values cfg) (value c) = true \/ value c = "general") /\
  map value (parseRecognitions (config default_state) "<@U1> ++ thanks #TeamWork" "U2")
    = ["teamwork"] /\
  parseRecognitions (config default_state) "<@U1> ++ thanks #bogus" "U2" = [] /\
  parseRecognition (config default_state) "<@U1> ++ thanks #bogus" "U2" = None.
Proof.
  assert (Hor : forall cfg v, (String.eqb v "general" = true \/ includes (values cfg) v = true) ->
                includes (values cfg) v = true \/ v = "general").
  { intros cfg v [H|H]; [right; by apply String.eqb_eq|by left]. }
  split; [|split; [|split; [|split; [|split; [|split; [|split; [|split; [|split; [|split; [|split]]]]]]]]]].
  - intros t Ht. cbn. destruct (str_empty t) eqn:E; [|done].
    unfold str_empty in E. by apply String.eqb_eq in E.
  - done.
  - intros cfg g us ps rt vt c H. apply unit_candidates_spec in H as (_ & _ & _ & Hv & H).
    rewrite Hv. split; [done|]. by apply Hor.
  - intros cfg g us ps rt vt Hi Hg. induction us as [|r rest IH]; cbn; [done|].
    rewrite Hi. apply String.eqb_neq in Hg. rewrite Hg. cbn.
    by destruct (String.eqb r g).
  - intros cfg g us ps rt vt Hg. induction us as [|r rest IH]; cbn; [done|].
    rewrite Hg. cbn. destruct (String.eqb r g); cbn; by rewrite IH.
  - intros cfg g r ps rt vt c H. apply single_of_match_spec in H as (_ & _ & _ & Hv & H & _).
    rewrite Hv. split; [done|]. by apply Hor.
  - intros cfg g r ps rt vt Hi Hg. unfold single_of_match.
    rewrite Hi. apply String.eqb_neq in Hg. rewrite Hg. cbn.
    destruct (_ && _); [done|]. destruct (str_empty _); [done|].
    by destruct (String.eqb r g).
  - intros cfg text g c [H|H].
    + unfold parseRecognitions in H. apply in_flat_map in H as (m & _ & H).
      apply unit_candidates_spec in H as (_ & _ & _ & -> & H). by apply Hor.
    + unfold parseRecognition in H. destruct (exec _ _ _); [|done].
      apply single_of_match_spec in H as (_ & _ & _ & -> & H & _). by apply Hor.
  - intros cfg resolve text g c H.
    unfold parseRecognitionsWithGroups in H. apply in_flat_map in H as (m & _ & H).
    apply unit_candidates_spec in H as (_ & _ & _ & -> & H). by apply Hor.
  - vm_compute. reflexivity.
  - vm_compute. reflexivity.
  - vm_compute. reflexivity.
Qed.

Lemma tag_resolution_witness :
  "Teamwork" <> "" /\ value_of (Some "Teamwork") = "teamwork".
Proof.
  split; [discriminate|].
  exact (proj1 tag_resolution "Teamwork" ltac:(discriminate)).
Defined.

(** C6 fails on the single-recognition parser: a unit with a [#tag] and
    an empty reason passes the test [!reason && !valueTag] and is then
    refused by [reason.length === 0]; the multi-recognition parser
    accepts the same text.  The [+] run does give the points, with no
    upper bound. *)
Theorem parseRecognition_empty_reason_with_tag :
  parseRecognition (config default_state) "<@U1> ++ #teamwork" "U2" = None /\
  parseRecognitions (config default_state) "<@U1> ++ #teamwork" "U2"
    = [mkRecognition "U2" "U1" "" "teamwork" 2] /\
  option_map points
    (parseRecognition (config default_state) "<@U1> ++++++++++++ great job #teamwork" "U2")
    = Some 12.
Proof. split; [|split]; vm_compute; reflexivity. Qed.

(* ------------------------------------------------------------------ *)
(** ** The config mutators of [DataService] *)

Lemma config_op_saved env L (f : AppConfig -> AppConfig) :
  (modify_config f ;; saveState env) L
  = saved env L (mkState (f (config (state L))) (users (state L))).
Proof. destruct L as [[c us] d]. by run_M. Qed.

Lemma addValue_run env v L :
  addValue env v L =
  if includes (values (config (state L))) (trim (toLowerCase v)) then (Ok tt, L)
  else saved env L (mkState (mkConfig (dailyLimit (config (state L)))
                               (values (config (state L)) ++ [trim (toLowerCase v)])
                               (rewards (config (state L))))
                            (users (state L))).
Proof.
  destruct L as [[c us] d]. unfold addValue, includes. run_M.
  by destruct (existsb _ _).
Qed.



Lemma includes_true_in l s : includes l s = true -> s ∈ l.
Proof.
  unfold includes. intros H. apply existsb_exists in H as (x & Hx & E).
  apply String.eqb_eq in E. subst. by apply list_elem_of_In.
Qed.





Lemma set_first_cost_some n k rs rs' :
  set_first_cost n k rs = Some rs' ->
  find (fun r => String.eqb (name r) n) rs' = Some (mkReward n k) /\
  (forall n', n' <> n ->
     find (fun r => String.eqb (name r) n') rs' = find (fun r => String.eqb (name r) n') rs) /\
  length rs' = length rs /\
  is_Some (find (fun r => String.eqb (name r) n) rs).
Proof.
  revert rs'. induction rs as [|r rs IH]; intros rs'; cbn; [done|].
  destruct (String.eqb (name r) n) eqn:E.
  - intros [= <-]. apply String.eqb_eq in E as E0. cbn. rewrite E.
    split; [by rewrite E0|]. split; [|split; [done|by eexists]].
    intros n' Hn'. rewrite E0.
    by rewrite (proj2 (String.eqb_neq n n')) by congruence.
  - destruct (set_first_cost n k rs) as [rs0|] eqn:Es; cbn; [|done].
    intros [= <-]. destruct (IH rs0 eq_refl) as (H1 & H2 & H3 & H4). cbn.
    rewrite E. split; [done|]. split; [|by rewrite H3].
    intros n' Hn'. by rewrite H2.
Qed.

Lemma set_first_cost_none n k rs :
  set_first_cost n k rs = None -> find (fun r => String.eqb (name r) n) rs = None.
Proof.
  induction rs as [|r rs IH]; cbn; [done|].
  destruct (String.eqb (name r) n); [done|].
  destruct (set_first_cost n k rs); cbn; [done|]. auto.
Qed.

Lemma find_app {A} (p : A -> bool) l1 l2 :
  find p (l1 ++ l2) = match find p l1 with Some x => Some x | None => find p l2 end.
Proof. induction l1 as [|x l1 IH]; cbn; [done|]. by destruct (p x). Qed.

Lemma find_removed n n' (rs : list Reward) :
  find (fun r => String.eqb (name r) n')
       (filter (fun r => negb (String.eqb (name r) n)) rs)
  = if String.eqb n' n then None else find (fun r => String.eqb (name r) n') rs.
Proof.
  induction rs as [|r rs IH]; [by destruct (String.eqb n' n)|].
  rewrite filter_cons.
  destruct (String.eqb (name r) n) eqn:E.
  - rewrite decide_False by (cbn; auto). rewrite IH.
    apply String.eqb_eq in E. subst. cbn.
    destruct (String.eqb n' (name r)) eqn:E'; [done|].
    rewrite (proj2 (String.eqb_neq (name r) n')); [done|].
    apply String.eqb_neq in E'. congruence.
  - rewrite decide_True by (cbn; auto). cbn. rewrite IH.
    destruct (String.eqb (name r) n') eqn:E'; [|done].
    apply String.eqb_eq in E'. subst. by rewrite E.
Qed.

(** X3: after [addReward(n, k)], [getReward(n)] is [{name: n, cost: k}]
    and [getReward] of every other name is as before; the first reward
    named [n] is updated in place (the list keeps its length), and an
    unknown name is appended (one more reward). *)
Theorem addReward_getReward (env : Env) (n : string) (k : Z) (L : Ledger) :
  let c := config (state L) in
  let c' := config (state (snd (addReward env n k L))) in
  getReward c' n = Some (mkReward n k) /\
  (forall n', n' <> n -> getReward c' n' = getReward c n') /\
  length (rewards c') =
    (length (rewards c) + match getReward c n with Some _ => 0 | None => 1 end)%nat /\
  dailyLimit c' = dailyLimit c /\ values c' = values c /\
  users (state (snd (addReward env n k L))) = users (state L).
Proof.
  cbv zeta. unfold addReward. rewrite config_op_saved, saved_state. cbn.
  unfold getReward. cbn.
  destruct (set_first_cost n k (rewards (config (state L)))) as [rs'|] eqn:Es.
  - destruct (set_first_cost_some _ _ _ _ Es) as (H1 & H2 & H3 & [r Hr]).
    split; [done|]. split; [done|]. split; [|done].
    rewrite H3, Hr. lia.
  - pose proof (set_first_cost_none _ _ _ Es) as Hn.
    rewrite find_app, Hn. cbn. rewrite String.eqb_refl.
    split; [done|]. split; [|split; [|done]].
    + intros n' Hn'. rewrite find_app.
      destruct (find (fun r => String.eqb (name r) n') (rewards (config (state L)))); [done|]. cbn.
      by rewrite (proj2 (String.eqb_neq n n')) by congruence.
    + rewrite length_app. cbn. lia.
Qed.

(** X4: after [removeReward(n)], [getReward(n)] is [undefined] and
    [getReward] of every other name is as before. *)
Theorem removeReward_getReward (env : Env) (n : string) (L : Ledger) :
  let c := config (state L) in
  let c' := config (state (snd (removeReward env n L))) in
  getReward c' n = None /\
  (forall n', n' <> n -> getReward c' n' = getReward c n') /\
  (length (rewards c') <= length (rewards c))%nat /\
  dailyLimit c' = dailyLimit c /\ values c' = values c /\
  users (state (snd (removeReward env n L))) = users (state L).
Proof.
  cbv zeta. unfold removeReward. rewrite config_op_saved, saved_state. cbn.
  unfold getReward. cbn. rewrite !find_removed, String.eqb_refl.
  split; [done|]. split; [|split; [apply length_filter|done]].
  intros n' Hn'. rewrite find_removed. by rewrite (proj2 (String.eqb_neq n' n)).
Qed.

(* ------------------------------------------------------------------ *)
(** ** Reading and resetting user records *)

(** X5: [resetUserPoints(u)] leaves [u] with exactly the record
    [{total: 0, byValue: {}, dailyGiven: 0, lastReset: today}], whether
    or not [u] had one, changes no other record and no config, and on a
    successful write saves that state. *)
Theorem resetUserPoints_result (env : Env) (u : string) (L : Ledger) :
  let L' := snd (resetUserPoints env u L) in
  users (state L') !! u = Some (mkUser 0 ∅ 0 (today env)) /\
  (forall k, k <> u -> users (state L') !! k = users (state L) !! k) /\
  config (state L') = config (state L) /\
  (storage_ok env = true -> fst (resetUserPoints env u L) = Ok tt /\ disk L' = state L').
Proof.
  cbv zeta. rewrite resetUserPoints_run. rewrite saved_state. cbn.
  split; [|split; [|split; [done|]]].
  - rewrite lookup_alter, ensure_user_lookup_eq, decide_True by done. reflexivity.
  - intros k Hk. rewrite lookup_alter_ne by done. by apply ensure_user_lookup_ne.
  - intros Hok. unfold saved. by rewrite Hok.
Qed.

(** X6: [getUserRecord(u)] returns the record stored for [u] after the
    call; a second call returns the same record and changes nothing; an
    existing record is returned as is without any change; only [u]'s
    entry may be added, never persisted. *)
Theorem getUserRecord_stable (env : Env) (u : string) (L : Ledger) :
  let L1 := snd (getUserRecord env u L) in
  getUserRecord env u L1 = (fst (getUserRecord env u L), L1) /\
  (exists r, fst (getUserRecord env u L) = Ok r /\ users (state L1) !! u = Some r) /\
  (forall r, users (state L) !! u = Some r -> getUserRecord env u L = (Ok r, L)) /\
  (forall k, k <> u -> users (state L1) !! k = users (state L) !! k) /\
  config (state L1) = config (state L) /\ disk L1 = disk L.
Proof.
  cbv zeta. rewrite !getUserRecord_run. cbn.
  rewrite ensure_user_lookup_eq. cbn.
  split; [|split; [|split; [|split; [|done]]]].
  - unfold ensure_user at 1. rewrite ensure_user_lookup_eq. by destruct L as [[c us] d].
  - eexists. split; done.
  - intros r Hr. rewrite Hr. unfold ensure_user. rewrite Hr. by destruct L as [[c us] d].
  - intros k Hk. by apply ensure_user_lookup_ne.
Qed.

(* ------------------------------------------------------------------ *)
(** ** The orchestrator and the daily limit *)

















(* ------------------------------------------------------------------ *)
(** ** [toLowerCase] and [trim] *)

Lemma is_ws_lower c : is_ws (to_lower_char c) = is_ws c.
Proof. destruct c as [[] [] [] [] [] [] [] []]; reflexivity. Qed.

Lemma to_lower_char_idem c : to_lower_char (to_lower_char c) = to_lower_char c.
Proof. destruct c as [[] [] [] [] [] [] [] []]; reflexivity. Qed.

Lemma drop_ws_map_lower l : drop_ws (map to_lower_char l) = map to_lower_char (drop_ws l).
Proof.
  induction l as [|c l IH]; [done|]. cbn. rewrite is_ws_lower. by destruct (is_ws c).
Qed.

Lemma drop_ws_idem l : drop_ws (drop_ws l) = drop_ws l.
Proof.
  induction l as [|c l IH]; [done|]. cbn. destruct (is_ws c) eqn:E; [done|]. cbn. by rewrite E.
Qed.

Lemma drop_ws_split l : exists p, l = p ++ drop_ws l.
Proof.
  induction l as [|c l [p Hp]]; [by exists []|]. cbn.
  destruct (is_ws c); [exists (c :: p); cbn; by f_equal | by exists []].
Qed.

Lemma drop_ws_head_fixed c l : is_ws c = false -> drop_ws (c :: l) = c :: l.
Proof. intros E. cbn. by rewrite E. Qed.

(** Dropping the trailing white space keeps a list without leading
    white space without leading white space. *)
Lemma drop_ws_rev_trailing a :
  drop_ws a = a -> drop_ws (rev (drop_ws (rev a))) = rev (drop_ws (rev a)).
Proof.
  intros Ha. destruct (drop_ws_split (rev a)) as [p Hp].
  destruct (drop_ws (rev a)) as [|x m] eqn:E; [done|].
  assert (Ha' : a = rev (x :: m) ++ rev p).
  { rewrite <- (rev_involutive a), Hp, rev_app_distr. done. }
  destruct (rev (x :: m)) as [|y q] eqn:Eq.
  { apply (f_equal (@length _)) in Eq. rewrite length_rev in Eq. discriminate. }
  rewrite Ha' in Ha. cbn in Ha. destruct (is_ws y) eqn:Ey; [|by apply drop_ws_head_fixed].
  exfalso. assert (Hl := f_equal (@length _) Ha). cbn in Hl.
  pose proof (drop_ws_split ((q ++ rev p))) as [p' Hp']. apply (f_equal (@length _)) in Hp'.
  rewrite (length_app p') in Hp'. lia.
Qed.

Lemma list_trim s :
  list_ascii_of_string (trim s)
  = rev (drop_ws (rev (drop_ws (list_ascii_of_string s)))).
Proof. unfold trim. apply list_ascii_of_string_of_list_ascii. Qed.

Lemma trim_idem s : trim (trim s) = trim s.
Proof.
  unfold trim at 1. rewrite list_trim.
  set (a := drop_ws (list_ascii_of_string s)).
  assert (Ha : drop_ws a = a) by apply drop_ws_idem.
  rewrite (drop_ws_rev_trailing a Ha), rev_involutive, drop_ws_idem.
  unfold trim. done.
Qed.

Lemma toLowerCase_trim s : toLowerCase (trim s) = trim (toLowerCase s).
Proof.
  unfold toLowerCase, trim. rewrite !list_ascii_of_string_of_list_ascii.
  f_equal. rewrite drop_ws_map_lower, <- map_rev, drop_ws_map_lower.
  by rewrite <- map_rev.
Qed.

Lemma toLowerCase_idem s : toLowerCase (toLowerCase s) = toLowerCase s.
Proof.
  unfold toLowerCase. rewrite list_ascii_of_string_of_list_ascii, map_map.
  f_equal. apply map_ext. apply to_lower_char_idem.
Qed.

(** [value.toLowerCase().trim()] is a fixed point of itself. *)
Lemma normalize_idem v :
  trim (toLowerCase (trim (toLowerCase v))) = trim (toLowerCase v).
Proof. by rewrite toLowerCase_trim, toLowerCase_idem, trim_idem. Qed.

Lemma normalize_nonempty v :
  str_empty (trim v) = false -> trim (toLowerCase v) <> "".
Proof.
  intros H E. rewrite <- toLowerCase_trim in E. unfold str_empty in H.
  apply String.eqb_neq in H. apply H.
  unfold toLowerCase in E. apply (f_equal list_ascii_of_string) in E.
  rewrite list_ascii_of_string_of_list_ascii in E. cbn in E.
  apply map_eq_nil in E. rewrite <- (string_of_list_ascii_of_string (trim v)), E. done.
Qed.

(* ------------------------------------------------------------------ *)
(** ** The commands of [CommandService] *)

(** X9: a user who is not in [adminUsers] gets a failed answer from
    every admin command, with the ledger left exactly as it was. *)
Theorem non_admin_refused (adminUsers : list string) (env : Env) (u : string) (L : Ledger)
    (Hna : CommandService.isAdmin adminUsers u = false) :
  (forall s, CommandService.setDailyLimit adminUsers env u s L
             = (Ok (mkResult false "Only admins can change the daily limit" None), L)) /\
  (forall v, CommandService.addValue adminUsers env u v L
             = (Ok (mkResult false "Only admins can add company values" None), L)) /\
  (forall v, CommandService.removeValue adminUsers env u v L
             = (Ok (mkResult false "Only admins can remove company values" None), L)) /\
  (forall n s, CommandService.addReward adminUsers env u n s L
             = (Ok (mkResult false "Only admins can add rewards" None), L)) /\
  (forall n, CommandService.removeReward adminUsers env u n L
             = (Ok (mkResult false "Only admins can remove rewards" None), L)) /\
  (forall resolve target, CommandService.resetPoints adminUsers env resolve u target L
             = (Ok (mkResult false "Only admins can reset points." None), L)) /\
  CommandService.resetAllPoints adminUsers env u L
             = (Ok (mkResult false "Only admins can reset all points." None), L).
Proof.
  unfold CommandService.isAdmin in Hna.
  unfold CommandService.setDailyLimit, CommandService.addValue, CommandService.removeValue,
    CommandService.addReward, CommandService.removeReward, CommandService.resetPoints,
    CommandService.resetAllPoints, CommandService.isAdmin.
  rewrite Hna. repeat split.
Qed.

Lemma non_admin_refused_witness :
  CommandService.isAdmin ["UA"] "UB" = false /\
  CommandService.resetAllPoints ["UA"] (mkEnv "2026-10-15" true) "UB"
    (mkLedger default_state default_state)
  = (Ok (mkResult false "Only admins can reset all points." None),
     mkLedger default_state default_state).
Proof.
  split; [reflexivity|].
  exact (proj2 (proj2 (proj2 (proj2 (proj2 (proj2
    (non_admin_refused ["UA"] (mkEnv "2026-10-15" true) "UB"
       (mkLedger default_state default_state) eq_refl))))))).
Defined.



Lemma addValue_normalized env v :
  addValue env (trim (toLowerCase v)) = addValue env v.
Proof. unfold addValue. by rewrite normalize_idem. Qed.

Lemma command_addValue_run adminUsers env u v L :
  CommandService.isAdmin adminUsers u = true -> CommandService.blank v = false ->
  CommandService.addValue adminUsers env u v L =
  match addValue env v L with
  | (Ok _, L') => (Ok (mkResult true ("Added " ++ dq ++ trim (toLowerCase v) ++ dq
                                      ++ " to company values") None), L')
  | (Err e, L') => (Err e, L')
  end.
Proof.
  intros Ha Hb. unfold CommandService.addValue. rewrite Ha, Hb. cbn [negb].
  unfold mbind, M_bind, CommandService.answer, mret, M_ret. cbv zeta.
  rewrite addValue_normalized. by destruct (addValue env v L) as [[]].
Qed.

(** X12: for an admin and a non-blank [value], [addValue] stores the
    name it reports, [value.toLowerCase().trim()], which is never empty;
    that name is a fixed point of the normalisation, so the same
    command repeated (or [DataService.addValue] of the reported name)
    answers the same and changes nothing. *)
Theorem addValue_command (adminUsers : list string) (env : Env) (u v : string) (L : Ledger)
    (Hadm : CommandService.isAdmin adminUsers u = true)
    (Hv : CommandService.blank v = false) :
  let nv := trim (toLowerCase v) in
  let msg := ("Added " ++ dq ++ nv ++ dq ++ " to company values")%string in
  let L' := snd (CommandService.addValue adminUsers env u v L) in
  nv <> ""%string /\ nv ∈ values (config (state L')) /\
  (storage_ok env = true -> fst (CommandService.addValue adminUsers env u v L)
                            = Ok (mkResult true msg None)) /\
  CommandService.addValue adminUsers env u v L' = (Ok (mkResult true msg None), L') /\
  addValue env nv L' = (Ok tt, L').
Proof.
  cbv zeta.
  assert (Hne : trim (toLowerCase v) <> ""%string).
  { apply normalize_nonempty. unfold CommandService.blank in Hv.
    apply orb_false_iff in Hv. apply Hv. }
  assert (Hin : trim (toLowerCase v)
                ∈ values (config (state (snd (CommandService.addValue adminUsers env u v L))))).
  { rewrite command_addValue_run by done. rewrite addValue_run.
    destruct (includes _ _) eqn:E.
    - cbn. by apply includes_true_in.
    - unfold saved. destruct (storage_ok env); cbn; apply elem_of_app; right; by left. }
  assert (Hinc : forall L0, trim (toLowerCase v) ∈ values (config (state L0)) ->
                 includes (values (config (state L0))) (trim (toLowerCase v)) = true).
  { intros L0 Hl. unfold includes. apply existsb_exists. exists (trim (toLowerCase v)).
    split; [by apply list_elem_of_In|apply String.eqb_refl]. }
  split; [done|]. split; [done|]. split; [|split].
  - intros Hok. rewrite command_addValue_run by done. rewrite addValue_run.
    destruct (includes _ _); [done|]. unfold saved. by rewrite Hok.
  - rewrite command_addValue_run by done. rewrite addValue_run, Hinc by done. done.
  - rewrite addValue_run, normalize_idem, Hinc by done. done.
Qed.

Lemma addValue_command_witness :
  CommandService.isAdmin ["UA"] "UA" = true /\ CommandService.blank " Fun " = false /\
  fst (CommandService.addValue ["UA"] (mkEnv "2026-10-15" true) "UA" " Fun "
         (mkLedger default_state default_state))
  = Ok (mkResult true ("Added " ++ dq ++ "fun" ++ dq ++ " to company values") None).
Proof.
  split; [reflexivity|]. split; [reflexivity|].
  exact (proj1 (proj2 (proj2 (addValue_command ["UA"] (mkEnv "2026-10-15" true) "UA" " Fun "
                          (mkLedger default_state default_state) eq_refl eq_refl))) eq_refl).
Defined.

(* ------------------------------------------------------------------ *)
(** ** [String(n)] read back by [parseInt] *)

Lemma code_digit k : (k < 10)%nat -> code (ascii_of_nat (48 + k)) = (48 + k)%nat.
Proof. intros Hk. unfold code. apply nat_ascii_embedding. lia. Qed.

Lemma digits_value_snoc ds d :
  digits_value (ds ++ [d]) = 10 * digits_value ds + (Z.of_nat (code d) - 48).
Proof. unfold digits_value. by rewrite fold_left_app. Qed.

Lemma digit_char m :
  is_digit (ascii_of_nat (48 + Z.to_nat (m mod 10))) = true /\
  Z.of_nat (code (ascii_of_nat (48 + Z.to_nat (m mod 10)))) - 48 = m mod 10.
Proof.
  pose proof (Z.mod_pos_bound m 10) as Hb.
  assert (Hd : (Z.to_nat (m mod 10) < 10)%nat) by lia.
  unfold is_digit. rewrite code_digit by done. split; [|lia].
  apply andb_true_iff. split; apply Nat.leb_le; lia.
Qed.

Lemma digits_rev_spec f m :
  0 <= m < 10 ^ Z.of_nat (S f) ->
  let ds := digits_rev (S f) m in
  ds <> [] /\ Forall (fun c => is_digit c = true) ds /\ digits_value (rev ds) = m.
Proof.
  revert m. induction f as [|f IH]; intros m Hm; cbv zeta;
    destruct (digit_char m) as [Hdig Hval];
    change (digits_rev (S ?f) m) with
      (ascii_of_nat (48 + Z.to_nat (m mod 10))
         :: (if m <? 10 then [] else digits_rev f (m / 10))).
  - rewrite (proj2 (Z.ltb_lt m 10)) by (cbn in Hm; lia).
    split; [done|]. split; [by constructor|].
    change (rev [?c]) with ([] ++ [c]). rewrite digits_value_snoc, Hval.
    change (digits_value []) with 0. rewrite Z.mod_small by (cbn in Hm; lia). lia.
  - destruct (m <? 10) eqn:E.
    + apply Z.ltb_lt in E. split; [done|]. split; [by constructor|].
      change (rev [?c]) with ([] ++ [c]). rewrite digits_value_snoc, Hval.
      change (digits_value []) with 0. rewrite Z.mod_small by lia. lia.
    + apply Z.ltb_ge in E.
      assert (Hm' : 0 <= m / 10 < 10 ^ Z.of_nat (S f)).
      { split; [apply Z.div_pos; lia|]. apply Z.div_lt_upper_bound; [lia|].
        rewrite Nat2Z.inj_succ in Hm. rewrite Z.pow_succ_r in Hm by lia. lia. }
      destruct (IH (m / 10) Hm') as (H1 & H2 & H3).
      split; [done|]. split; [by constructor|].
      cbn [rev]. rewrite digits_value_snoc, H3, Hval.
      pose proof (Z.div_mod m 10). lia.
Qed.


Lemma z_to_string_digits m :
  0 <= m ->
  let ds := rev (digits_rev (S (Z.to_nat (Z.log2 m))) m) in
  ds <> [] /\ Forall (fun c => is_digit c = true) ds /\ digits_value ds = m.
Proof.
  intros Hm. cbv zeta.
  assert (Hb : 0 <= m < 10 ^ Z.of_nat (S (Z.to_nat (Z.log2 m)))).
  { split; [done|]. pose proof (Z.log2_nonneg m).
    rewrite Nat2Z.inj_succ, Z2Nat.id by done.
    destruct (Z.eq_dec m 0) as [->|Hne]; [cbn; lia|].
    pose proof (Z.log2_spec m ltac:(lia)) as [_ Hlt].
    eapply Z.lt_le_trans; [exact Hlt|]. apply Z.pow_le_mono_l. lia. }
  destruct (digits_rev_spec _ _ Hb) as (H1 & H2 & H3).
  split; [intros Hr; apply H1; apply (f_equal (@rev _)) in Hr; by rewrite rev_involutive in Hr|].
  split; [|done]. apply Forall_rev. done.
Qed.




(* ------------------------------------------------------------------ *)
(** ** Invariants of the configuration under the commands *)

Section ConfigInvariant.
Variable P : AppConfig -> Prop.

Definition preserves {A} (m : M A) : Prop :=
  forall L, P (config (state L)) -> P (config (state (snd (m L)))).

Lemma preserves_ret {A} (a : A) : preserves (mret a).
Proof. by intros L. Qed.

Lemma preserves_bind {A B} (m : M A) (k : A -> M B) :
  preserves m -> (forall a, preserves (k a)) -> preserves (mbind k m).
Proof.
  intros Hm Hk L HL. unfold mbind, M_bind.
  specialize (Hm L HL). destruct (m L) as [[a|e] L'].
  - by apply Hk.
  - done.
Qed.

Lemma preserves_get_state : preserves get_state.
Proof. by intros L. Qed.

Lemma preserves_saveState env : preserves (saveState env).
Proof. intros L HL. unfold saveState. by destruct (storage_ok env). Qed.

Lemma preserves_modify_users f : preserves (modify_users f).
Proof. by intros [[c us] d]. Qed.

Lemma preserves_modify_config f : (forall c, P c -> P (f c)) -> preserves (modify_config f).
Proof. intros Hf [[c us] d]. cbn. apply Hf. Qed.

Lemma preserves_getConfig : preserves getConfig.
Proof. apply preserves_bind; [apply preserves_get_state|intros; apply preserves_ret]. Qed.

Lemma preserves_getUserRecord env u : preserves (getUserRecord env u).
Proof. intros L HL. by rewrite getUserRecord_run. Qed.

Lemma preserves_resetUserPoints env u : preserves (resetUserPoints env u).
Proof. intros L HL. by rewrite resetUserPoints_run, saved_state. Qed.

Lemma preserves_redeemReward env u n : preserves (redeemReward env u n).
Proof.
  intros L HL. rewrite redeemReward_run.
  destruct (getReward _ n); [|done]. cbv zeta.
  destruct (_ <? _); [done|]. by destruct (storage_ok env).
Qed.

Lemma preserves_reset_loop env ids : preserves (reset_loop env ids).
Proof.
  induction ids as [|u ids IH]; cbn [reset_loop]; [apply preserves_ret|].
  apply preserves_bind; [apply preserves_resetUserPoints|done].
Qed.

Lemma preserves_answer ok msg : preserves (CommandService.answer ok msg).
Proof. apply preserves_ret. Qed.

End ConfigInvariant.

Create HintDb preserves.
#[local] Hint Resolve preserves_ret preserves_bind preserves_get_state preserves_saveState
  preserves_modify_users preserves_getConfig preserves_getUserRecord preserves_resetUserPoints
  preserves_redeemReward preserves_reset_loop preserves_answer : preserves.

(** The commands that only touch the user records keep the whole
    configuration. *)
Lemma user_commands_keep_config (adminUsers : list string) env resolve u target n c :
  preserves (fun c' => c' = c) (CommandService.resetPoints adminUsers env resolve u target) /\
  preserves (fun c' => c' = c) (CommandService.resetAllPoints adminUsers env u) /\
  preserves (fun c' => c' = c) (CommandService.redeemReward env u n).
Proof.
  unfold CommandService.resetPoints, CommandService.resetAllPoints, CommandService.redeemReward.
  split; [|split].
  - destruct (negb _); [auto with preserves|]. cbv zeta.
    destruct (match_at _ _ _ _); [auto with preserves|].
    destruct (resolve target) as [id|]; [destruct (_ || _)|]; auto with preserves.
  - destruct (negb _); auto with preserves.
  - apply preserves_bind; [auto with preserves|]. intros cfg.
    destruct (getReward cfg n); [|auto with preserves].
    apply preserves_bind; [auto with preserves|]. intros us.
    destruct (_ <? _); [auto with preserves|].
    apply preserves_bind; [auto with preserves|]. intros [|]; auto with preserves.
Qed.

(** Every reward costs at least 1 point. *)
Definition costs_positive (c : AppConfig) : Prop := Forall (fun r => 1 <= cost r) (rewards c).

Lemma set_first_cost_positive n k rs rs' :
  1 <= k -> Forall (fun r => 1 <= cost r) rs -> set_first_cost n k rs = Some rs' ->
  Forall (fun r => 1 <= cost r) rs'.
Proof.
  intros Hk Hrs. revert rs'. induction Hrs as [|r rs Hr Hrs IH]; intros rs'; cbn; [done|].
  destruct (String.eqb (name r) n).
  - intros [= <-]. by constructor.
  - destruct (set_first_cost n k rs) as [rs0|]; cbn; [|done].
    intros [= <-]. constructor; [done|]. by apply IH.
Qed.

(** X13: the configuration a ledger starts from has only rewards that
    cost at least 1, and no command of [CommandService] can break this:
    [addReward] refuses a cost below 1 before it calls
    [DataService.addReward] (which would store any number), the value
    and limit commands do not touch the rewards, and the commands on
    user records do not change the configuration at all. *)
Theorem reward_costs_positive :
  costs_positive (config default_state) /\
  forall (adminUsers : list string) (env : Env) (u : string),
    (forall s, preserves costs_positive (CommandService.setDailyLimit adminUsers env u s)) /\
    (forall v, preserves costs_positive (CommandService.addValue adminUsers env u v)) /\
    (forall v, preserves costs_positive (CommandService.removeValue adminUsers env u v)) /\
    (forall n s, preserves costs_positive (CommandService.addReward adminUsers env u n s)) /\
    (forall n, preserves costs_positive (CommandService.removeReward adminUsers env u n)) /\
    (forall resolve target,
       preserves costs_positive (CommandService.resetPoints adminUsers env resolve u target)) /\
    preserves costs_positive (CommandService.resetAllPoints adminUsers env u) /\
    (forall n, preserves costs_positive (CommandService.redeemReward env u n)).
Proof.
  split.
  { unfold costs_positive. cbn. constructor; [cbn; lia|]. constructor; [cbn; lia|]. constructor. }
  intros adminUsers env u.
  assert (Hkeep : forall {A} (m : M A),
            (forall c, preserves (fun c' => c' = c) m) -> preserves costs_positive m).
  { intros A m Hm L HL. by rewrite (Hm (config (state L)) L eq_refl). }
  split; [|split; [|split; [|split; [|split; [|split; [|split]]]]]].
  - intros s. unfold CommandService.setDailyLimit.
    destruct (negb _); [auto with preserves|].
    destruct (parseInt s) as [k|]; [destruct (k <? 1)|]; auto with preserves.
    apply preserves_bind; [|auto with preserves].
    unfold setDailyLimit. apply preserves_bind; [|auto with preserves].
    by apply preserves_modify_config.
  - intros v. unfold CommandService.addValue.
    destruct (negb _); [auto with preserves|]. destruct (CommandService.blank v); [auto with preserves|].
    apply preserves_bind; [|auto with preserves].
    unfold addValue. apply preserves_bind; [auto with preserves|]. intros cfg.
    destruct (existsb _ _); [auto with preserves|].
    apply preserves_bind; [|auto with preserves]. by apply preserves_modify_config.
  - intros v. unfold CommandService.removeValue.
    destruct (negb _); [auto with preserves|]. destruct (CommandService.blank v); [auto with preserves|].
    apply preserves_bind; [|auto with preserves].
    unfold removeValue. apply preserves_bind; [|auto with preserves].
    by apply preserves_modify_config.
  - intros n s. unfold CommandService.addReward.
    destruct (negb _); [auto with preserves|]. destruct (CommandService.blank n); [auto with preserves|].
    destruct (parseInt s) as [k|]; [|auto with preserves].
    destruct (k <? 1) eqn:Ek; [auto with preserves|]. apply Z.ltb_ge in Ek.
    apply preserves_bind; [|auto with preserves].
    unfold addReward. apply preserves_bind; [|auto with preserves].
    apply preserves_modify_config. intros c Hc. unfold costs_positive in *. cbn.
    destruct (set_first_cost n k (rewards c)) as [rs|] eqn:Es.
    + by eapply set_first_cost_positive.
    + apply Forall_app. split; [done|]. by constructor.
  - intros n. unfold CommandService.removeReward.
    destruct (negb _); [auto with preserves|]. destruct (CommandService.blank n); [auto with preserves|].
    apply preserves_bind; [|auto with preserves].
    unfold removeReward. apply preserves_bind; [|auto with preserves].
    apply preserves_modify_config. intros c Hc. unfold costs_positive in *. cbn.
    rewrite Forall_forall in *. intros r (_ & Hr)%list_elem_of_filter. by apply Hc.
  - intros resolve target. apply Hkeep. intros c.
    apply (user_commands_keep_config adminUsers env resolve u target "" c).
  - apply Hkeep. intros c. apply (user_commands_keep_config adminUsers env (fun _ => None) u "" "" c).
  - intros n. apply Hkeep. intros c. apply (user_commands_keep_config adminUsers env (fun _ => None) u "" n c).
Qed.

(* ------------------------------------------------------------------ *)
(** ** [resetPoints] on a mention [<@ID>] *)

(** The loop of a greedy [RRep] over one character class, as [mt]
    runs it. *)
Section RepClass.
Variable input : list ascii.
Variable p : ascii -> bool.
Variable k : mstate -> option mstate.

Fixpoint rep_class (fuel mn : nat) (mx : option nat) (x : mstate) : option mstate :=
  match fuel with
  | O => None
  | S f =>
      match mx with
      | Some O => k x
      | _ =>
          let d := fun y =>
            if (mn =? 0)%nat && (mpos y =? mpos x)%nat then None
            else rep_class f (pred mn) (option_map pred mx) y in
          let xr := mkM (mpos x) (clear_caps [] (caps x)) in
          if negb (mn =? 0)%nat then mt input (RClass p) d xr
          else match mt input (RClass p) d xr with Some z => Some z | None => k x end
      end
  end.

Lemma mt_plus_class mn x :
  mt input (RRep mn None true (RClass p)) k x = rep_class (S (length input)) mn None x.
Proof. reflexivity. Qed.

(** A greedy loop over a maximal run of [n] characters of the class
    ends at the end of the run. *)
Lemma rep_class_run n : forall fuel i mn cs z,
  (n < fuel)%nat ->
  (forall t, (t < n)%nat -> exists c, input !! (i + t)%nat = Some c /\ p c = true) ->
  match input !! (i + n)%nat with Some c => p c = false | None => True end ->
  (mn <= n)%nat ->
  k (mkM (i + n) cs) = Some z ->
  rep_class fuel mn None (mkM i cs) = Some z.
Proof.
  induction n as [|n IH]; intros fuel i mn cs z Hf Hrun Hend Hmn Hk;
    destruct fuel as [|f]; try lia; cbn [rep_class].
  - assert (mn = 0%nat) as -> by lia. cbn -[lookup]. rewrite Nat.add_0_r in Hend, Hk.
    destruct (input !! i) as [c|]; [by rewrite Hend|done].
  - destruct (Hrun 0%nat ltac:(lia)) as (c & Hc & Hpc). rewrite Nat.add_0_r in Hc.
    assert (Hrest : rep_class f (pred mn) None (mkM (S i) cs) = Some z).
    { replace (i + S n)%nat with (S i + n)%nat in Hend, Hk by lia.
      apply IH; [lia| |done|lia|done].
      intros t Ht. replace (S i + t)%nat with (i + S t)%nat by lia. apply Hrun. lia. }
    cbn -[lookup rep_class Nat.eqb]. rewrite Hc, Hpc.
    rewrite (proj2 (Nat.eqb_neq (S i) i)) by lia. rewrite andb_false_r.
    destruct (mn =? 0)%nat; cbn -[rep_class]; by rewrite Hrest.
Qed.

End RepClass.

Lemma list_ascii_of_string_app s1 s2 :
  list_ascii_of_string (s1 ++ s2) = list_ascii_of_string s1 ++ list_ascii_of_string s2.
Proof.
  induction s1 as [|c s1 IH]; [done|].
  change (list_ascii_of_string (String c s1 ++ s2)) with (c :: list_ascii_of_string (s1 ++ s2)).
  by rewrite IH.
Qed.

Lemma mt_class_step input p k x c :
  input !! mpos x = Some c -> p c = true ->
  mt input (RClass p) k x = k (mkM (S (mpos x)) (caps x)).
Proof. intros Hc Hp. cbn. by rewrite Hc, Hp. Qed.

Lemma mt_seq input r1 r2 k x : mt input (RSeq r1 r2) k x = mt input r1 (mt input r2 k) x.
Proof. reflexivity. Qed.

Lemma mt_group input n r k x :
  mt input (RGroup n r) k x
  = mt input r (fun y => k (mkM (mpos y) (<[n := Some (mpos x, mpos y)]> (caps y)))) x.
Proof. reflexivity. Qed.

(** [target.match(/^<@([A-Z0-9]+)>$/)] on [<@ID>] captures [ID]. *)
Lemma reset_target_match ids :
  ids <> [] -> Forall (fun c => upper_digit c = true) ids ->
  let l := list_ascii_of_string ("<@" ++ string_of_list_ascii ids ++ ">") in
  exists m, match_at l reset_target_regex 1 0 = Some m /\
            cap l m 1 = Some (string_of_list_ascii ids).
Proof.
  intros Hne Hud. cbv zeta.
  rewrite !list_ascii_of_string_app, list_ascii_of_string_of_list_ascii.
  set (l := list_ascii_of_string "<@" ++ ids ++ list_ascii_of_string ">").
  set (n := length ids).
  set (cs := [None; None] : list (option (nat * nat))).
  set (z := mkM (3 + n) (<[1%nat := Some (2%nat, (2 + n)%nat)]> cs)).
  assert (Hl : length l = (3 + n)%nat) by (unfold l, n; rewrite !length_app; cbn; lia).
  assert (Hmt : mt l reset_target_regex Some (mkM 0 cs) = Some z).
  { change (mt l (RClass (chr "<"%char)) (mt l (RClass (chr "@"%char))
              (mt l (RGroup 1 (RRep 1 None true (RClass upper_digit)))
                 (mt l (RSeq (RClass (chr ">"%char)) REnd) Some))) (mkM 0 cs) = Some z).
    rewrite (mt_class_step l _ _ _ "<"%char) by done.
    rewrite (mt_class_step l _ _ _ "@"%char) by done.
    rewrite mt_group. cbn [mpos caps]. rewrite mt_plus_class.
    apply (rep_class_run l upper_digit _ n _ 2 1 cs z).
    - rewrite Hl. lia.
    - intros t Ht. destruct (lookup_lt_is_Some_2 ids t Ht) as [c Hc].
      exists c. split.
      + change (l !! (2 + t)%nat) with ((ids ++ [">"%char]) !! t).
        rewrite lookup_app_l by done. done.
      + rewrite Forall_lookup in Hud. exact (Hud t c Hc).
    - change (l !! (2 + n)%nat) with ((ids ++ [">"%char]) !! n).
      rewrite lookup_app_r by lia. rewrite Nat.sub_diag. done.
    - destruct ids; [done|]. unfold n. cbn. lia.
    - cbn beta. cbn [mpos caps]. rewrite mt_seq.
      rewrite (mt_class_step l _ _ _ ">"%char); cbn [mpos caps].
      + cbn [mt mpos]. rewrite Hl. replace (S (2 + n)) with (3 + n)%nat by lia.
        by rewrite Nat.eqb_refl.
      + cbn [mpos]. change (l !! (2 + n)%nat) with ((ids ++ [">"%char]) !! n).
        rewrite lookup_app_r by lia. rewrite Nat.sub_diag. done.
      + done. }
  exists (mkMatch 0 (mpos z) (caps z)). unfold match_at. change (replicate 2 None) with cs.
  rewrite Hmt. split; [done|].
  unfold cap. cbn. rewrite Nat.sub_0_r, drop_0. unfold n. by rewrite take_app_length.
Qed.

Lemma ensure_user_idem t id us : ensure_user t id (ensure_user t id us) = ensure_user t id us.
Proof. unfold ensure_user at 1. by rewrite ensure_user_lookup_eq. Qed.

(** [getUserRecord] before [resetUserPoints] of the same user adds
    nothing to it. *)
Lemma get_then_reset env u L :
  (getUserRecord env u ;; resetUserPoints env u) L = resetUserPoints env u L.
Proof.
  unfold mbind at 1, M_bind at 1. rewrite getUserRecord_run. cbn.
  rewrite !resetUserPoints_run. cbn. by rewrite ensure_user_idem.
Qed.

Lemma resetPoints_mention_run adminUsers env resolve requesterId ids L :
  includes adminUsers requesterId = true -> ids <> [] ->
  Forall (fun c => upper_digit c = true) ids ->
  let target := ("<@" ++ string_of_list_ascii ids ++ ">")%string in
  CommandService.resetPoints adminUsers env resolve requesterId target L =
  match resetUserPoints env (string_of_list_ascii ids) L with
  | (Ok _, L') => (Ok (mkResult true ("Points for " ++ target ++ " have been reset.") None), L')
  | (Err e, L') => (Err e, L')
  end.
Proof.
  intros Hadm Hne Hud. cbv zeta. unfold CommandService.resetPoints. rewrite Hadm. cbn [negb].
  destruct (reset_target_match ids Hne Hud) as (m & Hm & Hc). cbv zeta.
  rewrite Hm, Hc. cbn [default].
  rewrite <- get_then_reset. unfold CommandService.answer.
  unfold mbind, M_bind, mret, M_ret.
  destruct (getUserRecord env _ L) as [[r|e] L1]; [|done].
  by destruct (resetUserPoints env _ L1) as [[[]|e] L2].
Qed.

(** X14: an admin's [resetPoints] on a mention [<@ID>] (with [ID] a
    non-empty run of [A-Z0-9]) resets exactly the record of [ID], known
    or not: the answer [User ... not found.] never comes, the Slack lookup
    [resolveUserId] is not consulted, no other record and no config
    changes, and the answer is a success unless the write fails. *)
Theorem resetPoints_mention (adminUsers : list string) (env : Env)
    (resolve : string -> option string) (requesterId : string) (ids : list ascii) (L : Ledger)
    (Hadm : includes adminUsers requesterId = true) (Hne : ids <> [])
    (Hud : Forall (fun c => upper_digit c = true) ids) :
  let id := string_of_list_ascii ids in
  let target := ("<@" ++ id ++ ">")%string in
  let res := CommandService.resetPoints adminUsers env resolve requesterId target L in
  res = CommandService.resetPoints adminUsers env (fun _ => None) requesterId target L /\
  users (state (snd res)) !! id = Some (mkUser 0 ∅ 0 (today env)) /\
  (forall k, k <> id -> users (state (snd res)) !! k = users (state L) !! k) /\
  config (state (snd res)) = config (state L) /\
  fst res = if storage_ok env
            then Ok (mkResult true ("Points for " ++ target ++ " have been reset.") None)
            else Err "Failed to save data".
Proof.
  cbv zeta. rewrite !resetPoints_mention_run by done.
  rewrite resetUserPoints_run. unfold saved.
  destruct (storage_ok env); cbn;
    (split; [done|]); (split; [|split; [|split; [done|done]]]);
    try (rewrite lookup_alter, ensure_user_lookup_eq, decide_True by done; reflexivity);
    intros k Hk; rewrite lookup_alter_ne by done; by apply ensure_user_lookup_ne.
Qed.

Lemma resetPoints_mention_witness :
  includes ["UA"] "UA" = true /\ ["U"%char; "7"%char] <> [] /\
  Forall (fun c => upper_digit c = true) ["U"%char; "7"%char] /\
  fst (CommandService.resetPoints ["UA"] (mkEnv "2026-10-15" true) (fun _ => None) "UA" "<@U7>"
         (mkLedger default_state default_state))
  = Ok (mkResult true "Points for <@U7> have been reset." None).
Proof.
  split; [reflexivity|]. split; [done|]. split; [repeat constructor|].
  exact (proj2 (proj2 (proj2 (proj2
    (resetPoints_mention ["UA"] (mkEnv "2026-10-15" true) (fun _ => None) "UA"
       ["U"%char; "7"%char] (mkLedger default_state default_state) eq_refl
       ltac:(done) ltac:(repeat constructor)))))).
Defined.

Lemma mt_class_none input p k x :
  match input !! mpos x with Some c => p c = false | None => True end ->
  mt input (RClass p) k x = None.
Proof. intros H. cbn. destruct (input !! mpos x) as [c|]; [by rewrite H|done]. Qed.

(** [/^<@([A-Z0-9]+)>$/] fails on a target that does not start with [<]. *)
Lemma reset_target_no_match target :
  hd_error (list_ascii_of_string target) <> Some "<"%char ->
  match_at (list_ascii_of_string target) reset_target_regex 1 0 = None.
Proof.
  intros Hh. set (l := list_ascii_of_string target). unfold match_at.
  change (mt l reset_target_regex Some (mkM 0 (replicate 2 None)))
    with (mt l (RClass (chr "<"%char)) (mt l (RClass (chr "@"%char))
              (mt l (RGroup 1 (RRep 1 None true (RClass upper_digit)))
                 (mt l (RSeq (RClass (chr ">"%char)) REnd) Some))) (mkM 0 (replicate 2 None))).
  rewrite mt_class_none; [done|]. cbn [mpos].
  destruct l as [|c l'] eqn:El; cbn; [done|].
  unfold chr. apply Ascii.eqb_neq. intros ->. apply Hh.
  change (list_ascii_of_string target) with l. by rewrite El.
Qed.

(** [/^U[A-Z0-9]+$/.test] holds of [U] followed by a non-empty run of
    [A-Z0-9]. *)
Lemma slack_user_id_test ids :
  ids <> [] -> Forall (fun c => upper_digit c = true) ids ->
  regex_test slack_user_id_regex (String "U" (string_of_list_ascii ids)) = true.
Proof.
  intros Hne Hud. unfold regex_test, match_at.
  change (list_ascii_of_string (String "U" (string_of_list_ascii ids)))
    with ("U"%char :: list_ascii_of_string (string_of_list_ascii ids)).
  rewrite list_ascii_of_string_of_list_ascii.
  set (l := "U"%char :: ids). set (n := length ids).
  change (mt l slack_user_id_regex Some (mkM 0 (replicate 1 None)))
    with (mt l (RClass (chr "U"%char)) (mt l (RRep 1 None true (RClass upper_digit))
              (mt l REnd Some)) (mkM 0 (replicate 1 None))).
  rewrite (mt_class_step l _ _ _ "U"%char) by done. cbn [mpos caps].
  rewrite mt_plus_class.
  rewrite (rep_class_run l upper_digit _ n _ 1 1 (replicate 1 None) (mkM (1 + n) (replicate 1 None))).
  - done.
  - cbn. lia.
  - intros t Ht. destruct (lookup_lt_is_Some_2 ids t Ht) as [c Hc].
    exists c. split; [done|]. rewrite Forall_lookup in Hud. exact (Hud t c Hc).
  - change (l !! (1 + n)%nat) with (ids !! n). by rewrite lookup_ge_None_2.
  - destruct ids; [done|]. unfold n. cbn. lia.
  - cbn. unfold n. by rewrite Nat.eqb_refl.
Qed.

(** X15: for an admin and a target that is not a mention (it does not
    start with [<]), [resetPoints] asks [resolveUserId(target)]: no
    answer, or an id that fails [/^U[A-Z0-9]+$/], gives [Invalid user
    identifier: target] with the ledger unchanged; an id [U...] of
    [A-Z0-9] resets that user's record and succeeds unless the write
    fails. *)
Theorem resetPoints_resolved (adminUsers : list string) (env : Env)
    (resolve : string -> option string) (requesterId target : string) (L : Ledger)
    (Hadm : includes adminUsers requesterId = true)
    (Hh : hd_error (list_ascii_of_string target) <> Some "<"%char) :
  let res := CommandService.resetPoints adminUsers env resolve requesterId target L in
  let invalid := (Ok (mkResult false ("Invalid user identifier: " ++ target) None), L) in
  (resolve target = None -> res = invalid) /\
  (forall id, resolve target = Some id -> regex_test slack_user_id_regex id = false ->
     res = invalid) /\
  (forall ids, ids <> [] -> Forall (fun c => upper_digit c = true) ids ->
     resolve target = Some (String "U" (string_of_list_ascii ids)) ->
     res = match resetUserPoints env (String "U" (string_of_list_ascii ids)) L with
           | (Ok _, L') =>
               (Ok (mkResult true ("Points for " ++ target ++ " have been reset.") None), L')
           | (Err e, L') => (Err e, L')
           end).
Proof.
  cbv zeta. unfold CommandService.resetPoints. rewrite Hadm. cbn [negb]. cbv zeta.
  rewrite reset_target_no_match by done.
  split; [|split].
  - intros ->. done.
  - intros id -> Ht. rewrite Ht, orb_true_r. done.
  - intros ids Hne Hud ->. rewrite slack_user_id_test by done. cbn [str_empty negb orb].
    change (str_empty (String "U" (string_of_list_ascii ids))) with false. cbn [orb].
    rewrite <- get_then_reset. unfold CommandService.answer, mbind, M_bind, mret, M_ret.
    destruct (getUserRecord env _ L) as [[r|e] L1]; [|done].
    by destruct (resetUserPoints env _ L1) as [[[]|e] L2].
Qed.

Lemma resetPoints_resolved_witness :
  includes ["UA"] "UA" = true /\ hd_error (list_ascii_of_string "alice") <> Some "<"%char /\
  CommandService.resetPoints ["UA"] (mkEnv "2026-10-15" true) (fun _ => None) "UA" "alice"
    (mkLedger default_state default_state)
  = (Ok (mkResult false "Invalid user identifier: alice" None), mkLedger default_state default_state).
Proof.
  split; [reflexivity|]. split; [discriminate|].
  exact (proj1 (resetPoints_resolved ["UA"] (mkEnv "2026-10-15" true) (fun _ => None) "UA" "alice"
                  (mkLedger default_state default_state) eq_refl ltac:(discriminate)) eq_refl).
Defined.

(* ------------------------------------------------------------------ *)
(** ** [resetAllPoints] *)

Lemma reset_loop_ok env ids L :
  storage_ok env = true ->
  let L' := snd (reset_loop env ids L) in
  fst (reset_loop env ids L) = Ok tt /\
  config (state L') = config (state L) /\
  (forall k, users (state L') !! k =
             if decide (k ∈ ids) then Some (mkUser 0 ∅ 0 (today env)) else users (state L) !! k) /\
  (ids <> [] -> disk L' = state L') /\
  (ids = [] -> L' = L).
Proof.
  intros Hok. revert L. induction ids as [|u ids IH]; intros L; cbv zeta.
  - split; [done|]. split; [done|]. split; [|done].
    intros k. rewrite decide_False; [done|]. by intros ?%elem_of_nil.
  - set (s1 := mkState (config (state L))
                 (alter (reset_fields (today env)) u (ensure_user (today env) u (users (state L))))).
    assert (E : reset_loop env (u :: ids) L = reset_loop env ids (mkLedger s1 s1)).
    { cbn [reset_loop]. unfold mbind, M_bind. rewrite resetUserPoints_run. unfold saved.
      by rewrite Hok. }
    rewrite !E. destruct (IH (mkLedger s1 s1)) as (H1 & H2 & H3 & H4 & H5).
    cbv zeta in H1, H2, H3, H4, H5. split; [done|]. split; [done|]. split; [|split; [|done]].
    + intros k. rewrite H3. cbn.
      destruct (decide (k ∈ ids)) as [Hin|Hnin].
      * rewrite decide_True; [done|]. by right.
      * rewrite lookup_alter. destruct (decide (u = k)) as [<-|Hne].
        -- rewrite decide_True by by left. rewrite ensure_user_lookup_eq. done.
        -- rewrite decide_False; [by rewrite ensure_user_lookup_ne|].
           intros [->|?]%elem_of_cons; done.
    + intros _. destruct ids as [|v ids']; [by rewrite H5|]. by apply H4.
Qed.

Lemma user_keys_elem us k : k ∈ user_keys us <-> is_Some (us !! k).
Proof.
  unfold user_keys. rewrite list_elem_of_In, in_map_iff. split.
  - intros ([k' x] & <- & Hin). apply list_elem_of_In, elem_of_map_to_list in Hin. by exists x.
  - intros [x Hx]. exists (k, x). split; [done|]. by apply list_elem_of_In, elem_of_map_to_list.
Qed.

Lemma user_keys_nil us : user_keys us = [] <-> us = ∅.
Proof.
  unfold user_keys. rewrite <- map_to_list_empty_iff. split; [|by intros ->].
  destruct (map_to_list us); [done|discriminate].
Qed.

(** X16: an admin's [resetAllPoints], when the writes succeed, leaves
    every user that had a record with [{total: 0, byValue: {}, dailyGiven:
    0, lastReset: today}], adds no user and changes no config; with no
    user at all nothing is written. *)
Theorem resetAllPoints_all (adminUsers : list string) (env : Env) (requesterId : string) (L : Ledger)
    (Hadm : CommandService.isAdmin adminUsers requesterId = true)
    (Hok : storage_ok env = true) :
  let res := CommandService.resetAllPoints adminUsers env requesterId L in
  fst res = Ok (mkResult true "All user points have been reset." None) /\
  (forall k, users (state (snd res)) !! k
             = (fun _ => mkUser 0 ∅ 0 (today env)) <$> users (state L) !! k) /\
  config (state (snd res)) = config (state L) /\
  (users (state L) = ∅ -> snd res = L) /\
  (users (state L) <> ∅ -> disk (snd res) = state (snd res)).
Proof.
  cbv zeta. unfold CommandService.resetAllPoints. rewrite Hadm. cbn [negb].
  unfold mbind, M_bind, get_state. cbn iota beta.
  destruct (reset_loop_ok env (user_keys (users (state L))) L Hok) as (H1 & H2 & H3 & H4 & H5).
  cbv zeta in H1, H2, H3, H4, H5.
  destruct (reset_loop env (user_keys (users (state L))) L) as [r L'] eqn:E.
  cbn in H1, H2, H3, H4, H5. subst r. unfold CommandService.answer, mret, M_ret. cbn.
  split; [done|]. split; [|split; [done|split]].
  - intros k. rewrite H3. case_decide as Hk.
    + apply user_keys_elem in Hk as [x Hx]. by rewrite Hx.
    + destruct (users (state L) !! k) eqn:Ex; [|done].
      exfalso. apply Hk, user_keys_elem. by exists u.
  - intros He. apply H5, user_keys_nil, He.
  - intros Hne. apply H4. intros He. by apply Hne, user_keys_nil.
Qed.

Lemma resetAllPoints_all_witness :
  CommandService.isAdmin ["UA"] "UA" = true /\ storage_ok (mkEnv "2026-10-15" true) = true /\
  fst (CommandService.resetAllPoints ["UA"] (mkEnv "2026-10-15" true) "UA"
         (mkLedger default_state default_state))
  = Ok (mkResult true "All user points have been reset." None).
Proof.
  split; [reflexivity|]. split; [reflexivity|].
  exact (proj1 (resetAllPoints_all ["UA"] (mkEnv "2026-10-15" true) "UA"
                  (mkLedger default_state default_state) eq_refl eq_refl)).
Defined.

(* ------------------------------------------------------------------ *)
(** ** The [redeemReward] command *)


(* ------------------------------------------------------------------ *)
(** ** The data of the App Home view *)

(** [b.total - a.total <= 0]: [a] may come before [b]. *)
Definition ranks_before (a b : string * UserRecord) : Prop := total (snd b) <= total (snd a).

Lemma insert_desc_perm e l : insert_desc e l ≡ₚ e :: l.
Proof.
  induction l as [|x l IH]; cbn; [done|].
  destruct (total (snd x) <? total (snd e)); [done|].
  rewrite IH. apply Permutation_swap.
Qed.

Lemma insert_desc_sorted e l :
  StronglySorted ranks_before l -> StronglySorted ranks_before (insert_desc e l).
Proof.
  induction 1 as [|x l Hl IH Hx]; cbn.
  - by repeat constructor.
  - destruct (total (snd x) <? total (snd e)) eqn:E.
    + apply Z.ltb_lt in E. constructor; [by constructor|].
      constructor; [unfold ranks_before; lia|].
      eapply Forall_impl; [exact Hx|]. unfold ranks_before. intros y Hy. lia.
    + apply Z.ltb_ge in E. constructor; [done|].
      apply Forall_forall. intros y Hy.
      apply list_elem_of_In in Hy. rewrite (Permutation_in' eq_refl (insert_desc_perm e l)) in Hy.
      destruct Hy as [<-|Hy]; [unfold ranks_before; lia|].
      rewrite Forall_forall in Hx. apply Hx, list_elem_of_In, Hy.
Qed.

Lemma sort_desc_spec l acc :
  StronglySorted ranks_before acc ->
  StronglySorted ranks_before (fold_left (fun acc e => insert_desc e acc) l acc) /\
  fold_left (fun acc e => insert_desc e acc) l acc ≡ₚ l ++ acc.
Proof.
  revert acc. induction l as [|e l IH]; intros acc Hacc; cbn; [done|].
  destruct (IH (insert_desc e acc) (insert_desc_sorted e acc Hacc)) as [H1 H2].
  split; [done|]. rewrite H2, insert_desc_perm. symmetry. apply Permutation_middle.
Qed.

Lemma userEntries_spec us :
  StronglySorted ranks_before (userEntries us) /\ userEntries us ≡ₚ map_to_list us.
Proof.
  unfold userEntries, sort_desc. destruct (sort_desc_spec (map_to_list us) [] ltac:(constructor))
    as [H1 H2]. split; [done|]. by rewrite H2, app_nil_r.
Qed.

Lemma userEntries_elem us k v : (k, v) ∈ userEntries us <-> us !! k = Some v.
Proof.
  rewrite <- elem_of_map_to_list. destruct (userEntries_spec us) as [_ Hp].
  split; intros H; [by rewrite <- Hp | by rewrite Hp].
Qed.

Lemma userEntries_NoDup us : NoDup (map fst (userEntries us)).
Proof.
  destruct (userEntries_spec us) as [_ Hp].
  assert (Hm : forall l : list (string * UserRecord), map fst l = fst <$> l).
  { induction l as [|x l IH]; [done|]. cbn. by rewrite IH. }
  rewrite Hm, Hp. apply NoDup_fst_map_to_list.
Qed.

Lemma StronglySorted_lookup {A} (R : A -> A -> Prop) l i j a b :
  StronglySorted R l -> (i < j)%nat -> l !! i = Some a -> l !! j = Some b -> R a b.
Proof.
  intros Hs. revert i j. induction Hs as [|x l Hl IH Hx]; intros i j Hij Ha Hb; [done|].
  destruct i as [|i], j as [|j]; try lia; cbn in Ha, Hb.
  - injection Ha as <-. rewrite Forall_lookup in Hx. by apply (Hx j).
  - apply (IH i j); [lia|done|done].
Qed.

Lemma StronglySorted_app {A} (R : A -> A -> Prop) l1 l2 a b :
  StronglySorted R (l1 ++ l2) -> a ∈ l1 -> b ∈ l2 -> R a b.
Proof.
  induction l1 as [|x l1 IH]; intros Hs Ha Hb; [by apply elem_of_nil in Ha|].
  cbn in Hs. inversion Hs as [|? ? Hs' Hx]; subst.
  apply elem_of_cons in Ha as [->|Ha]; [|by apply IH].
  rewrite Forall_forall in Hx. apply Hx, elem_of_app. by right.
Qed.

Lemma StronglySorted_app_l {A} (R : A -> A -> Prop) l1 l2 :
  StronglySorted R (l1 ++ l2) -> StronglySorted R l1.
Proof.
  induction l1 as [|x l1 IH]; intros Hs; [constructor|].
  cbn in Hs. inversion Hs as [|? ? Hs' Hx]; subst. constructor; [by apply IH|].
  rewrite Forall_forall in Hx |- *. intros y Hy. apply Hx, elem_of_app. by left.
Qed.

(** X18: the leaderboard lists [min(10, number of users)] users, each
    with its record, in order of decreasing total, and a user left off
    it has no more points than anyone on it. *)
Theorem leaderboard_top (us : gmap string UserRecord) :
  length (leaderboard_lines us) = Nat.min 10 (size us) /\
  StronglySorted ranks_before (take 10 (userEntries us)) /\
  (forall e, e ∈ take 10 (userEntries us) -> us !! fst e = Some (snd e)) /\
  (forall id u, us !! id = Some u -> (id, u) ∉ take 10 (userEntries us) ->
     forall e, e ∈ take 10 (userEntries us) -> total u <= total (snd e)).
Proof.
  destruct (userEntries_spec us) as [Hs Hp].
  split; [|split; [|split]].
  - unfold leaderboard_lines. rewrite length_imap, length_take.
    rewrite (Permutation_length Hp), length_map_to_list. done.
  - apply (StronglySorted_app_l _ _ (drop 10 (userEntries us))). by rewrite take_drop.
  - intros [k v] He. apply userEntries_elem. rewrite <- (take_drop 10 (userEntries us)).
    apply elem_of_app. by left.
  - intros id u Hu Hnin e He.
    assert (Hd : (id, u) ∈ drop 10 (userEntries us)).
    { apply userEntries_elem in Hu. rewrite <- (take_drop 10 (userEntries us)) in Hu.
      apply elem_of_app in Hu as [?|?]; done. }
    rewrite <- (take_drop 10 (userEntries us)) in Hs.
    exact (StronglySorted_app _ _ _ e (id, u) Hs He Hd).
Qed.

Lemma userEntries_find us id :
  match list_find (fun e => fst e = id) (userEntries us) with
  | Some (i, e) => us !! id = Some (snd e) /\ userEntries us !! i = Some e /\ fst e = id
  | None => us !! id = None
  end.
Proof.
  destruct (list_find _ _) as [[i e]|] eqn:E.
  - apply list_find_Some in E as (Hi & He & _). split; [|done].
    destruct e as [k v]. cbn in *. subst. apply userEntries_elem.
    by apply list_elem_of_lookup_2 with i.
  - apply list_find_None in E. destruct (us !! id) as [v|] eqn:Ev; [|done].
    apply userEntries_elem in Ev. rewrite Forall_forall in E. by destruct (E _ Ev).
Qed.

Lemma z_to_string_nonneg_head n :
  0 <= n -> exists c s, z_to_string n = String c s /\ is_digit c = true.
Proof.
  intros Hn. unfold z_to_string. rewrite (proj2 (Z.ltb_ge n 0)) by done.
  destruct (z_to_string_digits (Z.abs n) ltac:(lia)) as (H1 & H2 & _).
  destruct (rev _) as [|c ds] eqn:E; [done|]. inversion H2; subst.
  exists c, (string_of_list_ascii ds). done.
Qed.

(** X19: the "Leaderboard Position" is [N/A] exactly when the user has
    no record; otherwise it is a number between 1 and the number of
    users, and every user with strictly more points is ranked before. *)
Theorem position_spec (us : gmap string UserRecord) (id : string) :
  (position_text us id = "N/A"%string <-> us !! id = None) /\
  (forall u, us !! id = Some u ->
     0 <= currentUserPosition us id < Z.of_nat (size us) /\
     forall id' u', us !! id' = Some u' -> total u < total u' ->
       currentUserPosition us id' < currentUserPosition us id).
Proof.
  destruct (userEntries_spec us) as [Hs Hp].
  assert (Hpos : forall k v, us !! k = Some v ->
            exists i, currentUserPosition us k = Z.of_nat i /\ userEntries us !! i = Some (k, v)).
  { intros k v Hv. pose proof (userEntries_find us k) as Hf. unfold currentUserPosition.
    destruct (list_find _ _) as [[i [k' v']]|]; [|congruence].
    destruct Hf as (H1 & H2 & H3). cbn in *. subst. exists i. split; [done|].
    rewrite H1 in Hv. by injection Hv as ->. }
  split.
  - unfold position_text. split.
    + intros Ht. destruct (us !! id) as [v|] eqn:Ev; [|done]. exfalso.
      destruct (Hpos id v Ev) as (i & Hi & _). rewrite Hi in Ht.
      rewrite (proj2 (Z.ltb_lt (-1) (Z.of_nat i))) in Ht by lia.
      destruct (z_to_string_nonneg_head (Z.of_nat i + 1) ltac:(lia)) as (c & s & Hc & Hd).
      rewrite Hc in Ht. injection Ht as -> _. discriminate Hd.
    + intros Hn. pose proof (userEntries_find us id) as Hf. unfold currentUserPosition.
      destruct (list_find _ _) as [[i e]|]; [destruct Hf as (Hf & _); congruence|]. done.
  - intros u Hu. destruct (Hpos id u Hu) as (i & Hi & Hl). rewrite Hi. split.
    + split; [lia|]. apply Nat2Z.inj_lt. rewrite <- length_map_to_list, <- (Permutation_length Hp).
      by apply lookup_lt_Some in Hl.
    + intros id' u' Hu' Hlt. destruct (Hpos id' u' Hu') as (j & Hj & Hl'). rewrite Hj.
      apply Nat2Z.inj_lt. destruct (Nat.lt_trichotomy j i) as [?|[->|Hij]]; [done| |].
      * rewrite Hl in Hl'. injection Hl' as -> ->. lia.
      * pose proof (StronglySorted_lookup _ _ _ _ _ _ Hs Hij Hl Hl') as Hr.
        unfold ranks_before in Hr. cbn in Hr. lia.
Qed.

(* ------------------------------------------------------------------ *)
(** ** [normalizeUserIds] *)




